(** * SDFGen: the command-line front end (main.cpp)

    A shallow embedding of [main] of SDFGen: argument parsing, the OBJ
    reader (vertex and face lines, triangle/quad splitting), the padding
    arithmetic that derives the grid, the call of the level-set builder
    and the record written to the .sdf file.

    Conventions.
    - [float] is IEEE 754 binary32, computed with the Standard Library's
      [SpecFloat] at precision 24 and exponent bound 128 (round to nearest,
      ties to even), the arithmetic of a C++ [float] on SSE hardware.
    - [int] and [unsigned int] are 32 bits wide and are carried in [Z]
      with the wrap-around written out.
    - The text-to-number conversions are those of a C++11 [std::istream]:
      a failed conversion stores 0, an extraction from an exhausted
      stream stores nothing.
    - A local that is read before anything was stored in it has an
      indeterminate value; those values are an explicit argument
      ([Indet]) of the functions that can observe them. *)

From Stdlib Require Import ZArith List String Ascii Bool Lia.
From Stdlib Require Import QArith.
From Stdlib Require Import Floats.SpecFloat.
From Stdlib Require DecimalString DecimalPos.
Import ListNotations.

#[local] Open Scope Z_scope.
#[local] Open Scope bool_scope.

(* ================================================================= *)
(** ** Single-precision floating point *)

Module Float32.

Definition prec : Z := 24.
Definition emax : Z := 128.

Definition float : Type := spec_float.

Definition fadd : float -> float -> float := SFadd prec emax.
Definition fsub : float -> float -> float := SFsub prec emax.
Definition fmul : float -> float -> float := SFmul prec emax.
Definition fdiv : float -> float -> float := SFdiv prec emax.
Definition fopp : float -> float := SFopp.

Definition flt : float -> float -> bool := SFltb.
Definition fle : float -> float -> bool := SFleb.

Definition fzero : float := S754_zero false.

(** [(float)z] for an integer [z]. *)
Definition of_int (z : Z) : float := binary_normalize prec emax z 0 false.

Definition fone : float := Eval cbv in of_int 1.

(** [std::numeric_limits<float>::max()]. *)
Definition FLT_MAX : float := Eval cbv in SFmax_float prec emax.

Definition is_nan (x : float) : bool :=
  match x with S754_nan => true | _ => false end.

(** A finite binary32 value in canonical form, zeros included. *)
Definition finite32 (x : float) : bool :=
  match x with
  | S754_zero _ => true
  | S754_finite _ m e => bounded prec emax m e
  | _ => false
  end.

(** The integer part of [x], rounded toward zero; [None] when [x] is an
    infinity or a NaN. *)
Definition trunc (x : float) : option Z :=
  match x with
  | S754_zero _ => Some 0
  | S754_finite s m e =>
      let a := match e with
               | Zneg p => Z.shiftr (Zpos m) (Zpos p)
               | _ => Z.shiftl (Zpos m) e
               end in
      Some (if s then - a else a)
  | _ => None
  end.

(** The exact value of a finite float, as a rational. *)
Definition to_Q (x : float) : Q :=
  match x with
  | S754_finite s m e =>
      let a := match e with
               | Zneg p => Qmake (Zpos m) (2 ^ p)
               | _ => inject_Z (Zpos m * 2 ^ e)
               end in
      if s then Qopp a else a
  | _ => 0%Q
  end.

(** [(unsigned int)x]: the truncation when it fits in 32 bits.  The
    conversion is undefined otherwise; the value then delivered is taken
    from [indet]. *)
Definition in_uint_range (x : float) : bool :=
  match trunc x with
  | Some z => (0 <=? z) && (z <? 2 ^ 32)
  | None => false
  end.

Definition to_uint (indet : float -> Z) (x : float) : Z :=
  match trunc x with
  | Some z => if (0 <=? z) && (z <? 2 ^ 32) then z else indet x mod 2 ^ 32
  | None => indet x mod 2 ^ 32
  end.

(** *** The order on floats

    [SFcompare] orders the representations lexicographically; [rank]
    sends a float to the triple it compares by. *)

Definition rank (x : float) : Z * Z * Z :=
  match x with
  | S754_nan => (0, 0, 0)
  | S754_zero _ => (0, 0, 0)
  | S754_infinity true => (-2, 0, 0)
  | S754_infinity false => (2, 0, 0)
  | S754_finite true m e => (-1, - e, - Zpos m)
  | S754_finite false m e => (1, e, Zpos m)
  end.

Definition lex_lt (a b : Z * Z * Z) : Prop :=
  let '(a1, a2, a3) := a in
  let '(b1, b2, b3) := b in
  a1 < b1 \/ (a1 = b1 /\ (a2 < b2 \/ (a2 = b2 /\ a3 < b3))).

Definition lex_le (a b : Z * Z * Z) : Prop := lex_lt a b \/ a = b.

End Float32.

Import Float32.

(* ================================================================= *)
(** ** Vectors of three components (Vec3f, Vec3ui) *)

Module Vec.

(** Modelled from the spec: [Vec3f] and [Vec3ui] are declared in vec.h,
    which is not among the sources.  The spec (section 3) has a vertex be a
    3D floating-point position and a triangle three vertex indices; the
    operations below are the componentwise ones that [main] writes with
    [+=], [-=], [*], [-] and [/], and the converting constructors. *)
Record Vec3 (T : Type) : Type := mkVec3 { x0 : T; x1 : T; x2 : T }.
Arguments mkVec3 {T} _ _ _.
Arguments x0 {T} _.
Arguments x1 {T} _.
Arguments x2 {T} _.

Definition Vec3f : Type := Vec3 float.
Definition Vec3ui : Type := Vec3 Z.

Definition components {T} (v : Vec3 T) : list T := [x0 v; x1 v; x2 v].

(** [v[k]] for [k] = 0, 1, 2. *)
Inductive axis : Type := axis0 | axis1 | axis2.

Definition coord {T} (k : axis) (v : Vec3 T) : T :=
  match k with
  | axis0 => x0 v
  | axis1 => x1 v
  | axis2 => x2 v
  end.

Definition vmap {A B} (f : A -> B) (v : Vec3 A) : Vec3 B :=
  mkVec3 (f (x0 v)) (f (x1 v)) (f (x2 v)).

Definition vzip {A B C} (f : A -> B -> C) (u : Vec3 A) (v : Vec3 B) : Vec3 C :=
  mkVec3 (f (x0 u) (x0 v)) (f (x1 u) (x1 v)) (f (x2 u) (x2 v)).

Definition vadd : Vec3f -> Vec3f -> Vec3f := vzip fadd.        (* u += v *)
Definition vsub : Vec3f -> Vec3f -> Vec3f := vzip fsub.        (* u -= v, u - v *)
Definition vscale (a : float) : Vec3f -> Vec3f := vmap (fmul a). (* a * v *)
Definition vdiv (v : Vec3f) (a : float) : Vec3f := vmap (fun c => fdiv c a) v. (* v / a *)

(** [unsigned int] holds a value modulo 2^32. *)
Definition uint (z : Z) : Z := z mod 2 ^ 32.

(** [Vec3ui(a, b, c)] with [int] arguments. *)
Definition Vec3ui_of_ints (a b c : Z) : Vec3ui := mkVec3 (uint a) (uint b) (uint c).

(** [Vec3ui(v)] for a [Vec3f v]: each component cast to [unsigned int]. *)
Definition Vec3ui_of_Vec3f (indet : float -> Z) : Vec3f -> Vec3ui :=
  vmap (to_uint indet).

End Vec.

Import Vec.

(* ================================================================= *)
(** ** Input streams *)

Module IStream.

#[local] Open Scope char_scope.
#[local] Open Scope string_scope.
#[local] Open Scope Z_scope.

(** [isspace] in the "C" locale. *)
Definition isspace (c : ascii) : bool :=
  match N_of_ascii c with
  | 32%N | 9%N | 10%N | 11%N | 12%N | 13%N => true
  | _ => false
  end.

Definition isdigit (c : ascii) : bool :=
  (48 <=? N_of_ascii c)%N && (N_of_ascii c <=? 57)%N.

Definition digit_value (c : ascii) : Z := Z.of_N (N_of_ascii c) - 48.

(** [s[i]] for [i <= s.size()]: the character, and the terminating
    null character at [i = s.size()]. *)
Definition char_at (s : string) (i : nat) : ascii :=
  match String.get i s with
  | Some c => c
  | None => Ascii.zero
  end.

(** A string stream: the characters not yet consumed and the fail bit. *)
Record istream : Type := mkStream { buf : string; failed : bool }.

Definition open (s : string) : istream := mkStream s false.
Definition spent : istream := mkStream "" true.

Fixpoint skipws (s : string) : string :=
  match s with
  | String c s' => if isspace c then skipws s' else s
  | EmptyString => s
  end.

(** What every formatted extraction does first: nothing is read from a
    failed stream; white space is skipped; reaching the end sets the fail
    bit. *)
Definition sentry (st : istream) : option string :=
  if failed st then None
  else match skipws (buf st) with
       | EmptyString => None
       | s => Some s
       end.

(** The argument holds a field: an extraction from a fresh stream on it
    passes the sentry. *)
Definition has_field (s : string) : bool :=
  match sentry (open s) with
  | Some _ => true
  | None => false
  end.

(** [st >> c] for a [char c]. *)
Definition get_char (st : istream) (old : ascii) : ascii * istream :=
  match sentry st with
  | Some (String c r) => (c, mkStream r false)
  | _ => (old, spent)
  end.

(** [st >> w] for a [std::string w]: the characters up to the next white
    space. *)
Fixpoint read_word (s : string) : string * string :=
  match s with
  | String c s' =>
      if isspace c then ("", s)
      else let '(w, r) := read_word s' in (String c w, r)
  | EmptyString => ("", "")
  end.

Definition get_word (st : istream) (old : string) : string * istream :=
  match sentry st with
  | Some s => let '(w, r) := read_word s in (w, mkStream r false)
  | None => (old, spent)
  end.

(** The words that [while (st >> w)] delivers, in order. *)
Fixpoint words (s : string) : list string :=
  match s with
  | EmptyString => []
  | String c s' =>
      if isspace c then words s'
      else match s' with
           | EmptyString => [String c ""]
           | String c' _ =>
               if isspace c' then String c "" :: words s'
               else match words s' with
                    | w :: ws => String c w :: ws
                    | [] => [String c ""]
                    end
           end
  end.

(** *** Integers

    [num_get] for an [int]: an optional sign, then the longest run of
    decimal digits.  No digit: 0 is stored and the extraction fails.  A
    value outside [int]: the nearest bound is stored and the extraction
    fails. *)

Definition INT_MAX : Z := 2147483647.
Definition INT_MIN : Z := -2147483648.

Fixpoint scan_digits (s : string) (acc : Z) : Z :=
  match s with
  | String c s' =>
      if isdigit c then scan_digits s' (10 * acc + digit_value c) else acc
  | EmptyString => acc
  end.

Definition starts_with_digit (s : string) : bool :=
  match s with
  | String c _ => isdigit c
  | EmptyString => false
  end.

Definition split_sign (s : string) : bool * string :=
  match s with
  | String "-" r => (true, r)
  | String "+" r => (false, r)
  | _ => (false, s)
  end.

Definition num_get_int (s : string) : Z * bool :=
  let '(neg, body) := split_sign s in
  if starts_with_digit body then
    let v := scan_digits body 0 in
    let v := if neg then - v else v in
    if INT_MAX <? v then (INT_MAX, false)
    else if v <? INT_MIN then (INT_MIN, false)
    else (v, true)
  else (0, false).

(** [st >> n] for an [int n], when nothing is read from [st] afterwards. *)
Definition get_int (st : istream) (old : Z) : Z :=
  match sentry st with
  | Some s => fst (num_get_int s)
  | None => old
  end.

(** *** Floats

    The decimal-to-binary conversion of the C++ runtime ([num_get] for a
    [float]) is a parameter: on the characters at hand it delivers the
    value stored, the characters left and whether the conversion
    succeeded. *)

Definition float_reader : Type := string -> float * string * bool.

Definition get_float (num_get_float : float_reader)
    (st : istream) (old : float) : float * istream :=
  match sentry st with
  | Some s => let '(v, r, ok) := num_get_float s in (v, mkStream r (negb ok))
  | None => (old, spent)
  end.

End IStream.

Import IStream.

(* ================================================================= *)
(** ** Reading the OBJ file (main.cpp, lines 56-108) *)

Module Obj.

#[local] Open Scope char_scope.
#[local] Open Scope string_scope.
#[local] Open Scope Z_scope.

(** The locals of [main] that the reading loop updates. *)
Record reader : Type := mkReader {
  vertList : list Vec3f;
  faceList : list Vec3ui;
  min_box : Vec3f;
  max_box : Vec3f;
  ignored_lines : Z
}.

(** "start with a massive inside out bound box" *)
Definition inside_out_min : Vec3f := mkVec3 FLT_MAX FLT_MAX FLT_MAX.
Definition inside_out_max : Vec3f :=
  mkVec3 (fopp FLT_MAX) (fopp FLT_MAX) (fopp FLT_MAX).

Definition initial : reader := mkReader [] [] inside_out_min inside_out_max 0.

Definition fmin (a b : float) : float := if flt a b then a else b.
Definition fmax (a b : float) : float := if flt b a then a else b.

(** Modelled from the spec: [update_minmax] is declared in vec.h, which is
    not among the sources.  The spec (section 2, Mesh Ingestion) has the
    reader produce the axis-aligned bounding box of the vertices: every
    component of [min_box] becomes the smaller of itself and the point's,
    every component of [max_box] the larger. *)
Definition update_minmax (point min_box max_box : Vec3f) : Vec3f * Vec3f :=
  (vzip fmin point min_box, vzip fmax point max_box).

(** The box after [update_minmax] has been called on the points [vs] in
    order. *)
Definition bound_box (vs : list Vec3f) (box : Vec3f * Vec3f) : Vec3f * Vec3f :=
  fold_left (fun b v => update_minmax v (fst b) (snd b)) vs box.

(** The least and the greatest element of a list of floats. *)
Definition is_minimum (m : float) (xs : list float) : Prop :=
  In m xs /\ forall x, In x xs -> fle m x = true.

Definition is_maximum (m : float) (xs : list float) : Prop :=
  In m xs /\ forall x, In x xs -> fle x m = true.

(** *** Face lines *)

(** [f[idx] = n] on the buffer [int f[4]]: [None] when [idx] is not an
    index of the buffer. *)
Definition store (f : list Z) (idx : nat) (n : Z) : option (list Z) :=
  if (idx <? List.length f)%nat
  then Some (firstn idx f ++ n :: skipn (S idx) f)%list
  else None.

Record store_event : Type := mkStore {
  at_index : nat;
  stored : Z;
  in_bounds : bool
}.

(** [wstream >> n] on one word of a face line. *)
Definition index_of_word (w : string) : Z := fst (num_get_int w).

Inductive face_scan : Type :=
| FaceRead (idx : nat) (f : list Z)   (* the loop ran to the end of the line *)
| FaceAbort (last : store_event).     (* [exit(1)], after the store [last] *)

(** The loop [while (data >> w)] of lines 87-96 over the words left on the
    line.  A word is not empty and holds no white space, so [wstream >> n]
    always reaches [num_get] and stores its result in [n] (lemma
    [get_int_word]).  The store of line 91 comes before the test of
    line 92. *)
Fixpoint face_loop (ws : list string) (f : list Z) (idx : nat) : face_scan :=
  match ws with
  | [] => FaceRead idx f
  | w :: ws' =>
      let n := index_of_word w in
      let st := store f idx n in
      let idx' := S idx in
      if (4 <? idx')%nat
      then FaceAbort (mkStore idx n (match st with Some _ => true | None => false end))
      else face_loop ws' (match st with Some f' => f' | None => f end) idx'
  end.

(** Lines 97-102.  [f[i]-1] is computed in [int] and converted to
    [unsigned int] by the constructor of [Vec3ui]. *)
Definition f_at (f : list Z) (i : nat) : Z := nth i f 0.

Definition triangles (idx : nat) (f : list Z) : list Vec3ui :=
  if (idx =? 3)%nat then
    [Vec3ui_of_ints (f_at f 0 - 1) (f_at f 1 - 1) (f_at f 2 - 1)]
  else if (idx =? 4)%nat then
    [Vec3ui_of_ints (f_at f 0 - 1) (f_at f 1 - 1) (f_at f 2 - 1);
     Vec3ui_of_ints (f_at f 2 - 1) (f_at f 3 - 1) (f_at f 0 - 1)]
  else [].

(** *** The loop over the lines *)

Inductive step : Type :=
| Continue (r : reader)
| Exit (code : Z) (last : store_event).

(** The triangle stored for the indices [a], [b], [c] of a face line, and
    what a face line does to the reader, told from the indices it
    carries. *)
Definition tri (a b c : Z) : Vec3ui := Vec3ui_of_ints (a - 1) (b - 1) (c - 1).

Definition push_faces (r : reader) (ts : list Vec3ui) : reader :=
  mkReader (vertList r) (faceList r ++ ts)%list (min_box r) (max_box r)
           (ignored_lines r).

(** A component [c] of a stored triangle is an index of the line, less
    one. *)
Definition zero_based (line : string) (c : Z) : Prop :=
  exists w, In w (tl (words line))
            /\ c = uint (index_of_word w - 1)
            /\ (1 <= index_of_word w -> c = index_of_word w - 1).

Definition face_outcome (r : reader) (indices : list Z) : step :=
  match indices with
  | [a; b; c] => Continue (push_faces r [tri a b c])
  | [a; b; c; d] => Continue (push_faces r [tri a b c; tri c d a])
  | _ :: _ :: _ :: _ :: e :: _ => Exit 1 (mkStore 4 e false)
  | _ => Continue (push_faces r [])
  end.

(** The values that [Vec3f point] and [int f[4]] hold when their
    declarations are reached. *)
Record line_indet : Type := mkLineIndet {
  point_indet : Vec3f;
  f_indet : Z * Z * Z * Z
}.

Definition f_initial (g : line_indet) : list Z :=
  let '(a, b, c, d) := f_indet g in [a; b; c; d].

Definition is_vertex_line (line : string) : bool :=
  Ascii.eqb (char_at line 0) "v"
  && (Ascii.eqb (char_at line 1) " " || Ascii.eqb (char_at line 1) "009").

Definition is_face_line (line : string) : bool :=
  Ascii.eqb (char_at line 0) "f"
  && (Ascii.eqb (char_at line 1) " " || Ascii.eqb (char_at line 1) "009").

Section Reader.

Variable num_get_float : float_reader.

(** Lines 74-77: [data >> c >> point[0] >> point[1] >> point[2]]. *)
Definition read_point (line : string) (point : Vec3f) : Vec3f :=
  let data := open line in
  let '(_, data) := get_char data Ascii.zero in
  let '(p0, data) := get_float num_get_float data (x0 point) in
  let '(p1, data) := get_float num_get_float data (x1 point) in
  let '(p2, _) := get_float num_get_float data (x2 point) in
  mkVec3 p0 p1 p2.

(** Every one of the three extractions of a vertex line finds a field:
    no coordinate of [point] keeps the value it had. *)
Definition reads_three_floats (line : string) : bool :=
  let '(_, d0) := get_char (open line) Ascii.zero in
  let '(_, d1) := get_float num_get_float d0 fzero in
  let '(_, d2) := get_float num_get_float d1 fzero in
  match sentry d0, sentry d1, sentry d2 with
  | Some _, Some _, Some _ => true
  | _, _, _ => false
  end.

(** The body of the loop, lines 73-106. *)
Definition process_line (g : line_indet) (line : string) (r : reader) : step :=
  if is_vertex_line line then
    let point := read_point line (point_indet g) in
    let '(mn, mx) := update_minmax point (min_box r) (max_box r) in
    Continue (mkReader (vertList r ++ [point])%list (faceList r) mn mx
                       (ignored_lines r))
  else if is_face_line line then
    match face_loop (tl (words line)) (f_initial g) 0 with
    | FaceAbort last => Exit 1 last
    | FaceRead idx f =>
        Continue (mkReader (vertList r) (faceList r ++ triangles idx f)%list
                           (min_box r) (max_box r) (ignored_lines r))
    end
  else
    Continue (mkReader (vertList r) (faceList r) (min_box r) (max_box r)
                       (ignored_lines r + 1)).

(** [while(!infile.eof())] over the lines that [getline] delivers;
    [g n] are the indeterminate values of the [n]-th pass. *)
Fixpoint read_loop (g : nat -> line_indet) (lines : list string)
    (r : reader) : step :=
  match lines with
  | [] => Continue r
  | line :: rest =>
      match process_line (g O) line r with
      | Continue r' => read_loop (fun n => g (S n)) rest r'
      | Exit code last => Exit code last
      end
  end.

End Reader.

(** The lines that successive [getline] calls deliver until the stream
    reports end of file: the text between line feeds, and the empty line
    that follows a final line feed. *)
Fixpoint getlines_from (cur : string) (s : string) : list string :=
  match s with
  | EmptyString => [cur]
  | String c s' =>
      if Ascii.eqb c "010" then cur :: getlines_from "" s'
      else getlines_from (cur ++ String c "") s'
  end.

Definition getlines (content : string) : list string := getlines_from "" content.

End Obj.

Import Obj.

(* ================================================================= *)
(** ** The level-set builder and the array it fills *)

Module Builder.

(** Modelled from the spec: [Array3f] is declared in array3.h, which is
    not among the sources.  The spec (section 3, DistanceField) has a
    dense array of ni·nj·nk floats, one per grid point, in a fixed linear
    order: index i fastest, then j, then k. *)
Record Array3f : Type := mkArray3f {
  ni : Z;
  nj : Z;
  nk : Z;
  a : list float
}.

Definition range (n : Z) : list Z := map Z.of_nat (seq 0 (Z.to_nat n)).

Definition fill (ni nj nk : Z) (value : Z -> Z -> Z -> float) : list float :=
  flat_map (fun k =>
    flat_map (fun j =>
      map (fun i => value i j k) (range ni)) (range nj)) (range nk).

(** The three passes of the builder: from the mesh and the grid to the
    signed distance at every grid point. *)
Definition distance_field : Type :=
  list Vec3ui -> list Vec3f -> Vec3f -> float -> Z -> Z -> Z ->
  Z -> Z -> Z -> float.

(** Modelled from the spec: [make_level_set3] is declared in
    makelevelset3.h, which is not among the sources.  Section 7
    (InvalidGridSpec): with dx <= 0 or any of ni, nj, nk <= 0 the core
    refuses the computation and signals a precondition violation.
    Section 6: otherwise it exposes the dense ni·nj·nk array in the fixed
    linear order, with the grid dimensions echoed.  The passes that
    compute the values are the parameter [passes]. *)
Definition make_level_set3 (passes : distance_field)
    (tri : list Vec3ui) (x : list Vec3f) (origin : Vec3f) (dx : float)
    (ni nj nk : Z) : option Array3f :=
  if fle dx fzero || (ni <=? 0) || (nj <=? 0) || (nk <=? 0) then None
  else Some (mkArray3f ni nj nk
               (fill ni nj nk (passes tri x origin dx ni nj nk))).

End Builder.

Import Builder.

(* ================================================================= *)
(** ** main *)

Module Main.

#[local] Open Scope string_scope.
#[local] Open Scope Z_scope.

(** What [gzwrite] is given, in order: [int]s and [float]s. *)
Inductive datum : Type :=
| Int32 (z : Z)
| Float (v : float).

Inductive outcome : Type :=
| Exited (code : Z) (last : option store_event)  (* [exit(code)] *)
| PreconditionViolation        (* the builder refused; nothing is written *)
| Written (outname : string) (data : list datum). (* [return 0] *)

(** The indeterminate values a run can observe: the locals [dx] and
    [padding] before their extraction, the locals of every pass of the
    reading loop, and the result of a float-to-unsigned conversion whose
    operand does not fit. *)
Record Indet : Type := mkIndet {
  dx_indet : float;
  padding_indet : Z;
  line_indets : nat -> line_indet;
  cast_indet : float -> Z
}.

(** Lines 41: the name is at least five characters long and ends in
    ".obj". *)
Definition is_obj_name (filename : string) : bool :=
  negb (String.length filename <? 5)%nat
  && String.eqb (substring (String.length filename - 4) 4 filename) ".obj".

(** Line 54. *)
Definition clamp_padding (padding : Z) : Z :=
  if padding <? 1 then 1 else padding.

(** Lines 115-119. *)
Definition unit : Vec3f := mkVec3 fone fone fone.

Definition margin (padding : Z) (dx : float) : Vec3f :=
  vscale (fmul (of_int padding) dx) unit.

Definition padded_min (r : reader) (padding : Z) (dx : float) : Vec3f :=
  vsub (min_box r) (margin padding dx).

Definition padded_max (r : reader) (padding : Z) (dx : float) : Vec3f :=
  vadd (max_box r) (margin padding dx).

Definition extent (r : reader) (padding : Z) (dx : float) : Vec3f :=
  vdiv (vsub (padded_max r padding dx) (padded_min r padding dx)) dx.

Definition sizes (cast : float -> Z) (r : reader) (padding : Z) (dx : float)
  : Vec3ui :=
  Vec3ui_of_Vec3f cast (extent r padding dx).

(** The grid dimension along one axis as the closed form
    (max - min + 2·p·dx)/dx gives it, [lo] and [hi] being the bounds of the
    vertices along the axis: once with every operation rounded to single
    precision, once in exact rational arithmetic on the values of the
    floats. *)
Definition closed_form_float (lo hi : float) (p : Z) (dx : float) : option Z :=
  trunc (fdiv (fadd (fsub hi lo) (fmul (of_int (2 * p)) dx)) dx).

Definition Qtrunc (q : Q) : Z := Z.quot (Qnum q) (Zpos (Qden q)).

Definition closed_form_exact (lo hi : float) (p : Z) (dx : float) : Z :=
  Qtrunc ((to_Q hi - to_Q lo + inject_Z (2 * p) * to_Q dx) / to_Q dx)%Q.

(** Lines 131-139. *)
Definition sdf_record (phi_grid : Array3f) (min_box : Vec3f) (dx : float)
  : list datum :=
  ([Int32 1; Int32 (ni phi_grid); Int32 (nj phi_grid); Int32 (nk phi_grid)]
   ++ map Float (components min_box)
   ++ [Float dx]
   ++ map Float (a phi_grid))%list.

Definition outname (filename : string) : string :=
  substring 0 (String.length filename - 4) filename ++ ".sdf".

Section Program.

Variable num_get_float : float_reader.
Variable passes : distance_field.

(** Lines 46-54. *)
Definition parse_dx (I : Indet) (arg : string) : float :=
  fst (get_float num_get_float (open arg) (dx_indet I)).

Definition parse_padding (I : Indet) (arg : string) : Z :=
  clamp_padding (get_int (open arg) (padding_indet I)).

(** Lines 115-143: from the mesh read to the file written. *)
Definition build_and_write (I : Indet) (r : reader) (padding : Z)
    (dx : float) (filename : string) : outcome :=
  let origin := padded_min r padding dx in
  let n := sizes (cast_indet I) r padding dx in
  match make_level_set3 passes (faceList r) (vertList r) origin dx
          (x0 n) (x1 n) (x2 n) with
  | None => PreconditionViolation
  | Some phi_grid => Written (outname filename) (sdf_record phi_grid origin dx)
  end.

(** Lines 16-108: what [main] holds when the file has been read. *)
Inductive loaded : Type :=
| Stop (code : Z) (last : option store_event)
| Ready (r : reader) (padding : Z) (dx : float) (filename : string).

Definition load (I : Indet) (argv : list string)
    (file : string -> option string) : loaded :=
  match argv with
  | [_; filename; arg2; arg3] =>
      if negb (is_obj_name filename) then Stop (-1) None
      else
        let dx := parse_dx I arg2 in
        let padding := parse_padding I arg3 in
        match file filename with
        | None => Stop (-1) None
        | Some content =>
            match read_loop num_get_float (line_indets I)
                    (getlines content) initial with
            | Exit code last => Stop code (Some last)
            | Continue r => Ready r padding dx filename
            end
        end
  | _ => Stop (-1) None
  end.

Definition main (I : Indet) (argv : list string)
    (file : string -> option string) : outcome :=
  match load I argv file with
  | Stop code last => Exited code last
  | Ready r padding dx filename => build_and_write I r padding dx filename
  end.

End Program.

(** Inputs on which no indeterminate value is read: both numeric arguments
    hold a field, and every vertex line of the file holds three. *)
Definition well_formed (num_get_float : float_reader) (argv : list string)
    (file : string -> option string) : Prop :=
  match argv with
  | [_; filename; arg2; arg3] =>
      has_field arg2 = true /\ has_field arg3 = true
      /\ match file filename with
         | Some content =>
             Forall (fun line => is_vertex_line line = true ->
                                 reads_three_floats num_get_float line = true)
                    (getlines content)
         | None => True
         end
  | _ => True
  end.

(** The three conversions of line 119 are defined. *)
Definition casts_defined (r : reader) (padding : Z) (dx : float) : Prop :=
  forall k : axis, in_uint_range (coord k (extent r padding dx)) = true.

End Main.

Import Main.

(* ================================================================= *)
(** ** A float reader for decimal notation

    An instance of [float_reader], used to run the program on concrete
    files: an optional sign, digits with an optional decimal point, an
    optional exponent; the value is rounded once, to nearest.  A field
    without a digit stores 0 and fails; a value beyond [FLT_MAX] stores
    [FLT_MAX] with the field's sign and fails. *)

Module Decimal.

#[local] Open Scope char_scope.
#[local] Open Scope string_scope.
#[local] Open Scope Z_scope.

Fixpoint take_digits (s : string) (acc count : Z) : Z * Z * string :=
  match s with
  | String c s' =>
      if isdigit c then take_digits s' (10 * acc + digit_value c) (count + 1)
      else (acc, count, s)
  | EmptyString => (acc, count, s)
  end.

(** [m * 10^e10], rounded to nearest even. *)
Definition round_decimal (neg : bool) (m e10 : Z) : float :=
  match m with
  | Zpos p =>
      if 0 <=? e10 then binary_round prec emax neg (p * Z.to_pos (10 ^ e10)) 0
      else
        let '(q, e, l) :=
          SFdiv_core_binary prec emax (Zpos p) 0 (10 ^ (- e10)) 0 in
        binary_round_aux prec emax neg q e l
  | _ => S754_zero neg
  end.

Definition finish (neg : bool) (m e10 : Z) (rest : string)
  : float * string * bool :=
  match round_decimal neg m e10 with
  | S754_infinity s => (if s then fopp FLT_MAX else FLT_MAX, rest, false)
  | v => (v, rest, true)
  end.

Definition is_exponent_mark (c : ascii) : bool :=
  Ascii.eqb c "e" || Ascii.eqb c "E".

Definition num_get_float : float_reader := fun s =>
  let '(neg, s1) := split_sign s in
  let '(ip, n1, s2) := take_digits s1 0 0 in
  let '(m, n2, s3) :=
    match s2 with
    | String "." r => take_digits r ip 0
    | _ => (ip, 0, s2)
    end in
  if n1 + n2 =? 0 then (fzero, s3, false)
  else
    match s3 with
    | String c r =>
        if is_exponent_mark c then
          let '(eneg, r1) := split_sign r in
          let '(ev, n3, r2) := take_digits r1 0 0 in
          if n3 =? 0 then (fzero, r2, false)
          else finish neg m ((if eneg then - ev else ev) - n2) r2
        else finish neg m (- n2) s3
    | EmptyString => finish neg m (- n2) s3
    end.

End Decimal.

(* ================================================================= *)
(** ** Sample inputs *)

Module Samples.

#[local] Open Scope string_scope.

Definition nl : string := String "010" "".

(** Indeterminate values of two runs. *)
Definition indet_a : Indet :=
  mkIndet (S754_finite false 8388608 (-24)) 7
          (fun _ => mkLineIndet (mkVec3 S754_nan S754_nan S754_nan) (9, 9, 9, 9))
          (fun _ => 0).

Definition indet_b : Indet :=
  mkIndet fone (-3)
          (fun _ => mkLineIndet (mkVec3 fzero fzero fzero) (0, 1, 2, 3))
          (fun _ => 5).

(** The unit cube centred at the origin, as quads. *)
Definition cube_obj : string :=
  "# unit cube" ++ nl ++
  "v -0.5 -0.5 -0.5" ++ nl ++ "v 0.5 -0.5 -0.5" ++ nl ++
  "v 0.5 0.5 -0.5" ++ nl ++ "v -0.5 0.5 -0.5" ++ nl ++
  "v -0.5 -0.5 0.5" ++ nl ++ "v 0.5 -0.5 0.5" ++ nl ++
  "v 0.5 0.5 0.5" ++ nl ++ "v -0.5 0.5 0.5" ++ nl ++
  "f 1 4 3 2" ++ nl ++ "f 5 6 7 8" ++ nl ++
  "f 1/1 2/2 6/3 5/4" ++ nl ++ "f 2//1 3//1 7//1 6//1" ++ nl ++
  "f 3 4 8 7" ++ nl ++ "f 4 1 5 8" ++ nl.

(** Two vertices, (0.5, 0.5, 0.5) and (1, 1, 1). *)
Definition diagonal_obj : string :=
  "v 0.5 0.5 0.5" ++ nl ++ "v 1 1 1".

(** A mesh file without a vertex. *)
Definition faces_only_obj : string := "f 1 2 3" ++ nl.

Definition files (name : string) : option string :=
  if String.eqb name "cube.obj" then Some cube_obj
  else if String.eqb name "diagonal.obj" then Some diagonal_obj
  else if String.eqb name "faces.obj" then Some faces_only_obj
  else None.

(** Command lines: the cube with dx = 0.5 and one cell of padding, the
    two vertices with dx = 0.02 and two cells. *)
Definition cube_args : list string := ["SDFGen"; "cube.obj"; "0.5"; "1"].
Definition diagonal_args : list string := ["SDFGen"; "diagonal.obj"; "0.02"; "2"].

(** A builder whose field is 0 everywhere. *)
Definition flat_field : distance_field :=
  fun _ _ _ _ _ _ _ _ _ _ => fzero.

(** The meshes read from the sample files, and the record written for the
    cube with dx = 0.5 and one cell of padding. *)
Definition mesh_of (l : loaded) : reader :=
  match l with
  | Ready r _ _ _ => r
  | Stop _ _ => initial
  end.

Definition cube_mesh : reader :=
  Eval vm_compute in
    mesh_of (load Decimal.num_get_float indet_a cube_args files).

Definition diagonal_mesh : reader :=
  Eval vm_compute in
    mesh_of (load Decimal.num_get_float indet_a diagonal_args files).

Definition half : float := Eval vm_compute in fst (fst (Decimal.num_get_float "0.5")).
Definition fiftieth : float := Eval vm_compute in fst (fst (Decimal.num_get_float "0.02")).

Definition cube_record : list datum :=
  Eval vm_compute in
    match main Decimal.num_get_float flat_field indet_a cube_args files with
    | Written _ data => data
    | _ => []
    end.

End Samples.

Import Samples.

(* ================================================================= *)
(** ** More of main: invocation, lines, what the reader holds *)

Module Invocation.

#[local] Open Scope string_scope.

(** Lines 16-44 and 61-65: the three ways [main] leaves through
    [exit(-1)] before a line is read. *)
Definition usage_error (argv : list string) (file : string -> option string)
  : bool :=
  match argv with
  | [_; filename; _; _] =>
      negb (is_obj_name filename)
      || match file filename with
         | Some _ => false
         | None => true
         end
  | _ => true
  end.

End Invocation.

Import Invocation.

Module Lines.

#[local] Open Scope string_scope.

Definition line_feed : string := String "010" "".
Definition carriage_return : string := String "013" "".

(** The text of a file whose lines are [lines]. *)
Definition join_lines (lines : list string) : string :=
  String.concat line_feed lines.

Definition holds_line_feed (s : string) : bool :=
  existsb (Ascii.eqb "010") (list_ascii_of_string s).

End Lines.

Import Lines.

Module Accounting.

#[local] Open Scope string_scope.
#[local] Open Scope Z_scope.

(** Lines 97-102, told from the indices of a line: the triangles pushed. *)
Definition faces_of_indices (indices : list Z) : list Vec3ui :=
  match indices with
  | [a; b; c] => [tri a b c]
  | [a; b; c; d] => [tri a b c; tri c d a]
  | _ => []
  end.

Definition faces_of_line (line : string) : list Vec3ui :=
  if is_face_line line
  then faces_of_indices (map index_of_word (tl (words line)))
  else [].

(** The [else] branch of lines 104-106. *)
Definition is_ignored_line (line : string) : bool :=
  negb (is_vertex_line line) && negb (is_face_line line).

(** A face line with more than four words after the [f]. *)
Definition overruns (line : string) : bool :=
  is_face_line line && (5 <? List.length (words line))%nat.

(** The points pushed for the vertex lines, pass by pass. *)
Fixpoint points_of (num_get_float : float_reader) (g : nat -> line_indet)
    (lines : list string) : list Vec3f :=
  match lines with
  | [] => []
  | line :: rest =>
      ((if is_vertex_line line
        then [read_point num_get_float line (point_indet (g O))]
        else [])
       ++ points_of num_get_float (fun n => g (S n)) rest)%list
  end.

(** Lines 110-111: the count printed in the warning, when one is
    printed. *)
Definition warning (r : reader) : option Z :=
  if 0 <? ignored_lines r then Some (ignored_lines r) else None.

End Accounting.

Import Accounting.

(* ================================================================= *)
(** ** Indices as an OBJ file writes them *)

Module Numerals.

#[local] Open Scope string_scope.

(** The decimal numeral of an integer: its digits, most significant
    first, after a minus sign for a negative one. *)
Definition numeral (n : Z) : string :=
  DecimalString.NilEmpty.string_of_int (Z.to_int n).

(** A word of the slash-separated form: the vertex index, a slash, and
    what the file has after it (texture and normal indices). *)
Definition slash_word (w : Z * string) : string :=
  numeral (fst w) ++ "/" ++ snd w.

End Numerals.

Import Numerals.

(* ================================================================= *)
(** * Properties *)

(** ** The order on floats *)

Module Float32Facts.

Ltac cmp_cases :=
  repeat match goal with
    | |- context [Z.compare ?a ?b] =>
        let H := fresh "C" in
        destruct (Z.compare_spec a b) as [H | H | H]
    | |- context [Pos.compare_cont Eq ?a ?b] =>
        change (Pos.compare_cont Eq a b) with (Pos.compare a b)
    | |- context [Pos.compare ?a ?b] =>
        let H := fresh "C" in
        destruct (Pos.compare_spec a b) as [H | H | H]
    end.

Lemma flt_rank (x y : float) :
  is_nan x = false -> is_nan y = false ->
  flt x y = true <-> lex_lt (rank x) (rank y).
Proof.
  intros Hx Hy. unfold flt, SFltb.
  destruct x as [sx | sx | | sx mx ex], y as [sy | sy | | sy my ey];
    try discriminate; cbn;
    repeat match goal with s : bool |- _ => destruct s end; cbn;
    cmp_cases; cbn; split; intros; try discriminate; try reflexivity;
    try lia.
Qed.

Lemma fle_rank (x y : float) :
  is_nan x = false -> is_nan y = false ->
  fle x y = true <-> lex_le (rank x) (rank y).
Proof.
  intros Hx Hy. unfold fle, SFleb, lex_le.
  destruct x as [sx | sx | | sx mx ex], y as [sy | sy | | sy my ey];
    try discriminate; cbn;
    repeat match goal with s : bool |- _ => destruct s end; cbn;
    cmp_cases; cbn; split; intros; try discriminate; try reflexivity;
    try (left; lia); try (right; congruence);
    try (right; f_equal; [f_equal|]; lia);
    try match goal with
      | H : _ \/ _ |- _ => destruct H as [H | H]; [lia | inversion H; lia]
      end.
Qed.

Lemma digits2_pos_bound (m : positive) :
  2 ^ (Zpos (digits2_pos m) - 1) <= Zpos m < 2 ^ Zpos (digits2_pos m).
Proof.
  induction m as [m IH | m IH |]; cbn [digits2_pos].
  - rewrite Pos2Z.inj_succ, Z.pow_succ_r by lia.
    replace (Z.succ (Zpos (digits2_pos m)) - 1) with (Z.succ (Zpos (digits2_pos m) - 1)) by lia.
    rewrite Z.pow_succ_r by lia. lia.
  - rewrite Pos2Z.inj_succ, Z.pow_succ_r by lia.
    replace (Z.succ (Zpos (digits2_pos m)) - 1) with (Z.succ (Zpos (digits2_pos m) - 1)) by lia.
    rewrite Z.pow_succ_r by lia. lia.
  - cbn. lia.
Qed.

Lemma canonical_exponent (m : positive) (e : Z) :
  bounded prec emax m e = true ->
  fexp prec emax (Zpos (digits2_pos m) + e) = e /\ e <= 104.
Proof.
  unfold bounded, canonical_mantissa. intros H.
  apply andb_true_iff in H as [H1 H2].
  apply Z.eqb_eq in H1. apply Z.leb_le in H2. split; [exact H1 |].
  exact H2.
Qed.

Lemma compare_cont_le (m M : positive) :
  Zpos m <= Zpos M -> Pos.compare_cont Eq m M = Lt \/ m = M.
Proof.
  intros H. change (Pos.compare_cont Eq m M) with (Pos.compare m M).
  destruct (Pos.compare_spec m M) as [Heq | Hlt | Hgt];
    [now right | now left | lia].
Qed.

(** A mantissa in the top binade is at most 2^24 - 1. *)
Lemma top_mantissa (m : positive) :
  bounded prec emax m 104 = true -> Zpos m <= 16777215.
Proof.
  intros H. destruct (canonical_exponent m _ H) as [Hc _].
  unfold fexp, emin, prec, emax in Hc.
  pose proof (digits2_pos_bound m) as Hb.
  assert (Hd : Zpos (digits2_pos m) = 24) by lia.
  rewrite Hd in Hb. change (2 ^ 24) with 16777216 in Hb. lia.
Qed.

Lemma finite32_below_max (x : float) :
  finite32 x = true -> flt x FLT_MAX = true \/ x = FLT_MAX.
Proof.
  destruct x as [s | s | | s m e]; cbn [finite32]; try discriminate.
  - intros _. left. reflexivity.
  - intros H. destruct (canonical_exponent m e H) as [_ He].
    destruct s; [left; reflexivity |].
    unfold flt, SFltb, FLT_MAX, SFcompare.
    destruct (Z.compare_spec e 104) as [-> | Hlt | Hgt]; [| now left | lia].
    destruct (compare_cont_le m 16777215 (top_mantissa m H)) as [-> | ->];
      [now left | now right].
Qed.

Lemma finite32_above_min (x : float) :
  finite32 x = true -> flt (fopp FLT_MAX) x = true \/ x = fopp FLT_MAX.
Proof.
  destruct x as [s | s | | s m e]; cbn [finite32]; try discriminate.
  - intros _. left. reflexivity.
  - intros H. destruct (canonical_exponent m e H) as [_ He].
    destruct s; [| left; reflexivity].
    unfold flt, SFltb, FLT_MAX, fopp, SFopp, SFcompare. cbn [negb].
    destruct (Z.compare_spec 104 e) as [<- | Hlt | Hgt]; [| lia | now left].
    change (Pos.compare_cont Eq 16777215 m) with (Pos.compare 16777215 m).
    rewrite (Pos.compare_antisym m 16777215).
    change (Pos.compare m 16777215) with (Pos.compare_cont Eq m 16777215).
    destruct (compare_cont_le m 16777215 (top_mantissa m H)) as [-> | ->];
      [now left | now right].
Qed.

Lemma fmul_fone (x : float) :
  valid_binary prec emax x = true -> fmul fone x = x.
Proof.
  destruct x as [s | s | | s m e]; try reflexivity.
  cbn [valid_binary]. intros H.
  destruct (canonical_exponent m e H) as [Hc He].
    unfold fmul, fone, SFmul. cbn [xorb].
    unfold binary_round_aux.
    change (Pos.mul 8388608 m) with (m~0~0~0~0~0~0~0~0~0~0~0~0~0~0~0~0~0~0~0~0~0~0~0)%positive.
    unfold shr_fexp at 1. 
    unfold Zdigits2. cbn [digits2_pos].
    set (d := digits2_pos m) in *.
    replace (Zpos (Pos.succ (Pos.succ (Pos.succ (Pos.succ (Pos.succ (Pos.succ (Pos.succ (Pos.succ (Pos.succ (Pos.succ (Pos.succ (Pos.succ (Pos.succ (Pos.succ (Pos.succ (Pos.succ (Pos.succ (Pos.succ (Pos.succ (Pos.succ (Pos.succ (Pos.succ (Pos.succ d))))))))))))))))))))))) + (-23 + e)) with (Zpos d + e) by lia.
    rewrite Hc.
    replace (e - (-23 + e)) with 23 by lia.
    cbn [shr shr_record_of_loc iter_pos shr_1 orb shr_m loc_of_shr_record round_nearest_even].
    replace (-23 + e + 23) with e by lia.
    unfold shr_fexp. unfold Zdigits2. fold d. rewrite Hc.
    rewrite Z.sub_diag. cbn [shr shr_record_of_loc shr_m].
    apply Z.leb_le in He. change (emax - prec) with 104. now rewrite He.
Qed.

Lemma lex_total (a b : Z * Z * Z) : lex_lt a b \/ lex_le b a.
Proof.
  destruct a as [[a1 a2] a3], b as [[b1 b2] b3]. unfold lex_le, lex_lt.
  destruct (Z.lt_trichotomy a1 b1) as [H | [-> | H]]; [lia | | lia].
  destruct (Z.lt_trichotomy a2 b2) as [H | [-> | H]]; [lia | | lia].
  destruct (Z.lt_trichotomy a3 b3) as [H | [-> | H]]; [lia | | lia].
  right. now right.
Qed.

Lemma lex_le_trans (a b c : Z * Z * Z) : lex_le a b -> lex_le b c -> lex_le a c.
Proof.
  intros [H1 | ->] [H2 | ->]; try (now left); try (now right).
  left. destruct a as [[a1 a2] a3], b as [[b1 b2] b3], c as [[c1 c2] c3].
  unfold lex_lt in *. lia.
Qed.

Lemma lex_lt_not_le (a b : Z * Z * Z) : lex_lt a b -> lex_le b a -> False.
Proof.
  destruct a as [[a1 a2] a3], b as [[b1 b2] b3]. unfold lex_le, lex_lt.
  intros H [H' | H']; [lia | injection H' as -> -> ->; lia].
Qed.

Lemma fle_refl (a : float) : is_nan a = false -> fle a a = true.
Proof. intros H. apply fle_rank; try assumption. now right. Qed.

Lemma fle_trans (a b c : float) :
  is_nan a = false -> is_nan b = false -> is_nan c = false ->
  fle a b = true -> fle b c = true -> fle a c = true.
Proof.
  intros Ha Hb Hc H1 H2. apply fle_rank; try assumption.
  apply fle_rank in H1, H2; try assumption. eapply lex_le_trans; eassumption.
Qed.

Lemma not_flt_fle (a b : float) :
  is_nan a = false -> is_nan b = false -> flt a b = false -> fle b a = true.
Proof.
  intros Ha Hb H. apply fle_rank; try assumption.
  destruct (lex_total (rank a) (rank b)) as [Hlt | Hle]; [| exact Hle].
  apply flt_rank in Hlt; try assumption. congruence.
Qed.

Lemma flt_not_fle (a b : float) :
  is_nan a = false -> is_nan b = false ->
  flt a b = true -> fle b a = true -> False.
Proof.
  intros Ha Hb H1 H2. apply flt_rank in H1; try assumption.
  apply fle_rank in H2; try assumption. eapply lex_lt_not_le; eassumption.
Qed.

Lemma finite32_not_nan (x : float) : finite32 x = true -> is_nan x = false.
Proof. destruct x; cbn; congruence. Qed.

Lemma fmin_cases (a b : float) : fmin a b = a \/ fmin a b = b.
Proof. unfold fmin. destruct (flt a b); auto. Qed.

Lemma fmax_cases (a b : float) : fmax a b = a \/ fmax a b = b.
Proof. unfold fmax. destruct (flt b a); auto. Qed.

Lemma fmin_le (a b : float) :
  is_nan a = false -> is_nan b = false ->
  fle (fmin a b) a = true /\ fle (fmin a b) b = true.
Proof.
  intros Ha Hb. unfold fmin. destruct (flt a b) eqn:H; split.
  - now apply fle_refl.
  - apply fle_rank; try assumption. left. now apply flt_rank.
  - now apply not_flt_fle.
  - now apply fle_refl.
Qed.

Lemma fmax_ge (a b : float) :
  is_nan a = false -> is_nan b = false ->
  fle a (fmax a b) = true /\ fle b (fmax a b) = true.
Proof.
  intros Ha Hb. unfold fmax. destruct (flt b a) eqn:H; split.
  - now apply fle_refl.
  - apply fle_rank; try assumption. left. now apply flt_rank.
  - now apply not_flt_fle.
  - now apply fle_refl.
Qed.

Create HintDb float_order.

#[export] Hint Resolve fle_refl finite32_not_nan : float_order.

End Float32Facts.

Import Float32Facts.

(* ================================================================= *)
(** ** Words and integers *)

Module IStreamFacts.

#[local] Open Scope string_scope.
#[local] Open Scope Z_scope.

Lemma words_head_not_space (s : string) :
  forall w, In w (words s) ->
  exists c r, w = String c r /\ isspace c = false.
Proof.
  induction s as [| c s IH]; cbn [words]; intros w Hw.
  - destruct Hw.
  - destruct (isspace c) eqn:Hc.
    + now apply IH.
    + destruct s as [| c' s'].
      * destruct Hw as [<- | []]. now exists c, "".
      * destruct (isspace c') eqn:Hc'.
        -- destruct Hw as [<- | Hw]; [now exists c, "" | now apply IH].
        -- destruct (words (String c' s')) as [| w0 ws] eqn:Hws.
           ++ destruct Hw as [<- | []]. now exists c, "".
           ++ destruct Hw as [<- | Hw]; [now exists c, w0 |].
              apply IH. now right.
Qed.

Lemma words_cons (c : ascii) (s : string) :
  words (String c s)
  = if isspace c then words s
    else match s with
         | EmptyString => [String c ""]
         | String c' _ =>
             if isspace c' then String c "" :: words s
             else match words s with
                  | w :: ws => String c w :: ws
                  | [] => [String c ""]
                  end
         end.
Proof. destruct s; reflexivity. Qed.

(** [words] is what [data >> w] delivers, call after call: nothing when
    the extraction fails, else the word read and the words of what is left
    in the stream. *)
Lemma words_step (s old : string) :
  words s = if has_field s
            then let '(w, st) := get_word (open s) old in w :: words (buf st)
            else [].
Proof.
  unfold has_field, get_word, sentry, open. cbn [failed buf].
  induction s as [| c s IH]; [reflexivity |].
  rewrite words_cons. cbn [skipws].
  destruct (isspace c) eqn:Hc; [exact IH |].
  cbn [read_word]. rewrite Hc.
  destruct s as [| c' s']; [reflexivity |].
  destruct (isspace c') eqn:Hc'.
  - cbn [read_word]. rewrite Hc'. reflexivity.
  - rewrite IH. cbn [skipws]. rewrite Hc'.
    destruct (read_word (String c' s')) as [w r]. reflexivity.
Qed.

(** On a word of a line, [wstream >> n] stores what [num_get] delivers,
    whatever [n] held. *)
Lemma get_int_word (s w : string) (old : Z) :
  In w (words s) -> get_int (open w) old = index_of_word w.
Proof.
  intros Hw. destruct (words_head_not_space s w Hw) as (c & r & -> & Hc).
  unfold get_int, sentry, open, index_of_word. cbn. now rewrite Hc.
Qed.

Lemma num_get_int_range (s : string) :
  INT_MIN <= fst (num_get_int s) <= INT_MAX.
Proof.
  unfold num_get_int. destruct (split_sign s) as [neg body].
  destruct (starts_with_digit body); cbn [fst]; [| unfold INT_MIN, INT_MAX; lia].
  set (v := if neg then - scan_digits body 0 else scan_digits body 0).
  destruct (Z.ltb_spec INT_MAX v); cbn [fst]; [unfold INT_MIN, INT_MAX; lia |].
  destruct (Z.ltb_spec v INT_MIN); cbn [fst]; unfold INT_MIN, INT_MAX in *; lia.
Qed.

Lemma scan_digits_slash (pre rest : string) :
  forall acc, scan_digits (pre ++ String "/" rest) acc = scan_digits pre acc.
Proof.
  induction pre as [| c pre IH]; intros acc; cbn.
  - reflexivity.
  - destruct (isdigit c); [apply IH | reflexivity].
Qed.

Lemma starts_with_digit_slash (pre rest : string) :
  starts_with_digit (pre ++ String "/" rest) = starts_with_digit pre.
Proof. destruct pre; reflexivity. Qed.

Lemma split_sign_app (pre rest : string) :
  pre <> "" ->
  split_sign (pre ++ rest) = (fst (split_sign pre), snd (split_sign pre) ++ rest).
Proof.
  destruct pre as [| c pre]; [congruence | intros _].
  destruct c as [[] [] [] [] [] [] [] []]; reflexivity.
Qed.

Lemma num_get_int_slash (pre rest : string) :
  num_get_int (pre ++ String "/" rest) = num_get_int pre.
Proof.
  destruct pre as [| c pre]; [reflexivity |].
  unfold num_get_int.
  rewrite split_sign_app by discriminate.
  destruct (split_sign (String c pre)) as [neg body]; cbn [fst snd].
  now rewrite starts_with_digit_slash, scan_digits_slash.
Qed.

End IStreamFacts.

Import IStreamFacts.

(* ================================================================= *)
(** ** Face lines *)

Module FaceFacts.

#[local] Open Scope string_scope.
#[local] Open Scope Z_scope.

Lemma face_not_vertex (line : string) :
  is_face_line line = true -> is_vertex_line line = false.
Proof.
  unfold is_face_line, is_vertex_line. intros H.
  apply andb_true_iff in H as [H _]. apply Ascii.eqb_eq in H. now rewrite H.
Qed.

(** The buffer after the loop, told from the indices on the line: the
    entries below [idx] are the indices in order, whatever the buffer held
    at first. *)
Lemma face_loop_indices (ws : list string) (g : line_indet) :
  match map index_of_word ws with
  | [] => face_loop ws (f_initial g) 0 = FaceRead 0 (f_initial g)
  | [a] => exists x y z, face_loop ws (f_initial g) 0 = FaceRead 1 [a; x; y; z]
  | [a; b] => exists y z, face_loop ws (f_initial g) 0 = FaceRead 2 [a; b; y; z]
  | [a; b; c] => exists z, face_loop ws (f_initial g) 0 = FaceRead 3 [a; b; c; z]
  | [a; b; c; d] => face_loop ws (f_initial g) 0 = FaceRead 4 [a; b; c; d]
  | _ :: _ :: _ :: _ :: e :: _ =>
      face_loop ws (f_initial g) 0 = FaceAbort (mkStore 4 e false)
  end.
Proof.
  unfold f_initial. destruct (f_indet g) as [[[x y] z] t].
  destruct ws as [| w1 [| w2 [| w3 [| w4 [| w5 ws]]]]]; cbn; eauto.
Qed.

Lemma process_face_line (num_get_float : float_reader) (g : line_indet)
    (line : string) (r : reader) :
  is_face_line line = true ->
  process_line num_get_float g line r
  = face_outcome r (map index_of_word (tl (words line))).
Proof.
  intros Hf. unfold process_line.
  rewrite (face_not_vertex _ Hf), Hf.
  pose proof (face_loop_indices (tl (words line)) g) as H.
  destruct (map index_of_word (tl (words line)))
    as [| a [| b [| c [| d [| e l]]]]].
  - now rewrite H.
  - destruct H as (x & y & z & ->). reflexivity.
  - destruct H as (y & z & ->). reflexivity.
  - destruct H as (z & ->). reflexivity.
  - rewrite H. reflexivity.
  - rewrite H. reflexivity.
Qed.

(** C3.  A face line with exactly three indices a, b, c appends the one
    triangle of a, b, c to the face list; with exactly four indices a, b,
    c, d it appends the triangle of a, b, c and then the triangle of c, d,
    a, the quad's winding kept; with more than four indices the program
    leaves through [exit(1)] and no face is appended.  (The triangle of a,
    b, c holds the indices shifted to base 0.) *)
Theorem face_line_triangles (num_get_float : float_reader) (g : line_indet)
    (line : string) (r : reader) :
  is_face_line line = true ->
  let indices := map index_of_word (tl (words line)) in
  (forall a b c, indices = [a; b; c] ->
     process_line num_get_float g line r
     = Continue (push_faces r [tri a b c]))
  /\ (forall a b c d, indices = [a; b; c; d] ->
        process_line num_get_float g line r
        = Continue (push_faces r [tri a b c; tri c d a]))
  /\ ((4 < List.length indices)%nat ->
        exists last, process_line num_get_float g line r = Exit 1 last).
Proof.
  intros Hf indices. rewrite (process_face_line _ _ _ _ Hf). fold indices.
  repeat split.
  - now intros a b c ->.
  - now intros a b c d ->.
  - intros Hlen.
    destruct indices as [| a [| b [| c [| d [| e l]]]]]; cbn in Hlen; try lia.
    now exists (mkStore 4 e false).
Qed.

(** C8.  On a face line with five or more words the fifth index is stored
    at position 4 of the buffer of four: after four words the loop has
    filled positions 0 to 3 and has not left, the store at position 4 is
    out of bounds, and [exit(1)] is taken only after that store. *)
Theorem fifth_index_overruns (num_get_float : float_reader) (g : line_indet)
    (line : string) (r : reader) (w1 w2 w3 w4 w5 : string) (ws : list string) :
  is_face_line line = true ->
  tl (words line) = w1 :: w2 :: w3 :: w4 :: w5 :: ws ->
  let f := map index_of_word [w1; w2; w3; w4] in
  face_loop [w1; w2; w3; w4] (f_initial g) 0 = FaceRead 4 f
  /\ store f 4 (index_of_word w5) = None
  /\ process_line num_get_float g line r
     = Exit 1 (mkStore 4 (index_of_word w5) false).
Proof.
  intros Hf Hw f. repeat split.
  - apply (face_loop_indices [w1; w2; w3; w4] g).
  - rewrite (process_face_line _ _ _ _ Hf), Hw. reflexivity.
Qed.

(** Every exit of the loop body is of that kind. *)
Lemma exit_only_after_overrun (num_get_float : float_reader) (g : line_indet)
    (line : string) (r : reader) (code : Z) (last : store_event) :
  process_line num_get_float g line r = Exit code last ->
  code = 1 /\ at_index last = 4%nat /\ in_bounds last = false
  /\ is_face_line line = true /\ (5 < List.length (words line))%nat.
Proof.
  intros H.
  assert (Hf : is_face_line line = true).
  { unfold process_line in H.
    destruct (is_vertex_line line).
    - destruct (update_minmax _ _ _); discriminate.
    - destruct (is_face_line line); [reflexivity | discriminate]. }
  rewrite (process_face_line _ _ _ _ Hf) in H.
  destruct (words line) as [| w0 [| w1 [| w2 [| w3 [| w4 [| w5 ws]]]]]];
    cbn in H; try discriminate.
  injection H as <- <-. cbn [at_index in_bounds List.length].
  repeat split; try reflexivity; try assumption. lia.
Qed.

End FaceFacts.

Import FaceFacts.

(* ================================================================= *)
(** ** Face lines of the slash-separated form *)

Module SlashFacts.

#[local] Open Scope string_scope.
#[local] Open Scope Z_scope.

Import DecimalString.

Lemma scan_digits_acc (d : Decimal.uint) :
  forall acc : positive,
  scan_digits (NilEmpty.string_of_uint d) (Z.pos acc)
  = Z.pos (Pos.of_uint_acc d acc).
Proof.
  induction d as [| d IH | d IH | d IH | d IH | d IH | d IH | d IH | d IH
                  | d IH | d IH]; intros acc;
    cbn [NilEmpty.string_of_uint Pos.of_uint_acc]; [reflexivity | ..];
    cbn [scan_digits]; change (isdigit _) with true; cbv iota;
    rewrite <- IH; f_equal;
    match goal with
    | |- context [digit_value ?c] =>
        let v := eval vm_compute in (digit_value c) in
        change (digit_value c) with v
    end; lia.
Qed.

Lemma scan_digits_uint (d : Decimal.uint) :
  scan_digits (NilEmpty.string_of_uint d) 0 = Z.of_N (Pos.of_uint d).
Proof.
  induction d as [| d IH | d IH | d IH | d IH | d IH | d IH | d IH | d IH
                  | d IH | d IH];
    cbn [NilEmpty.string_of_uint Pos.of_uint]; [reflexivity | exact IH | ..];
    cbn [scan_digits]; change (isdigit _) with true; cbv iota;
    cbn [Z.of_N]; rewrite <- scan_digits_acc; reflexivity.
Qed.

Lemma uint_first_digit (d : Decimal.uint) :
  d <> Decimal.Nil ->
  split_sign (NilEmpty.string_of_uint d) = (false, NilEmpty.string_of_uint d)
  /\ starts_with_digit (NilEmpty.string_of_uint d) = true.
Proof. destruct d; [congruence | ..]; intros _; split; reflexivity. Qed.

(** A numeral is read back as the integer it writes. *)
Lemma num_get_int_numeral (n : Z) :
  INT_MIN <= n <= INT_MAX -> num_get_int (numeral n) = (n, true).
Proof.
  intros Hn. unfold numeral, num_get_int.
  destruct n as [| p | p]; [reflexivity | |];
    cbn [Z.to_int NilEmpty.string_of_int].
  - destruct (uint_first_digit (Pos.to_uint p)
                (DecimalPos.Unsigned.to_uint_nonnil p)) as [-> ->].
    rewrite scan_digits_uint, DecimalPos.Unsigned.of_to. cbn [Z.of_N].
    destruct (Z.ltb_spec INT_MAX (Z.pos p)); [lia |].
    destruct (Z.ltb_spec (Z.pos p) INT_MIN); [unfold INT_MIN in *; lia |].
    reflexivity.
  - change (split_sign (String "-" ?s)) with (true, s).
    destruct (uint_first_digit (Pos.to_uint p)
                (DecimalPos.Unsigned.to_uint_nonnil p)) as [_ ->].
    rewrite scan_digits_uint, DecimalPos.Unsigned.of_to. cbn [Z.of_N Z.opp].
    destruct (Z.ltb_spec INT_MAX (Z.neg p)); [unfold INT_MAX in *; lia |].
    destruct (Z.ltb_spec (Z.neg p) INT_MIN); [lia |].
    reflexivity.
Qed.

(** What follows the first slash of a word is not read. *)
Lemma index_of_word_slash (pre rest : string) :
  index_of_word (pre ++ "/" ++ rest) = index_of_word pre.
Proof.
  unfold index_of_word. change ("/" ++ rest) with (String "/" rest).
  now rewrite num_get_int_slash.
Qed.

Lemma index_of_slash_word (w : Z * string) :
  INT_MIN <= fst w <= INT_MAX -> index_of_word (slash_word w) = fst w.
Proof.
  intros Hn. unfold slash_word. rewrite index_of_word_slash.
  unfold index_of_word. now rewrite num_get_int_numeral.
Qed.

Lemma indices_of_slash_words (ws : list (Z * string)) :
  Forall (fun w => INT_MIN <= fst w <= INT_MAX) ws ->
  map index_of_word (map slash_word ws) = map fst ws.
Proof.
  induction 1 as [| w ws Hw _ IH]; cbn [map]; [reflexivity |].
  now rewrite IH, index_of_slash_word.
Qed.

(** C10.  On a face line whose words are of the slash-separated form,
    [n/rest] with n written as a decimal numeral: the integer that
    [wstream >> n] stores for a word is its leading integer n, whatever
    follows the slash, so the line gives the indices n of its words in
    order; with three words the triangle pushed is the one of their
    leading integers, with four the two triangles of theirs.  Nothing of
    what follows a slash is read: for any text [pre], the word [pre/rest]
    gives the index that [pre] alone gives. *)
Theorem slash_suffix_discarded (num_get_float : float_reader) (g : line_indet)
    (line : string) (r : reader) (ws : list (Z * string)) :
  is_face_line line = true ->
  tl (words line) = map slash_word ws ->
  Forall (fun w => INT_MIN <= fst w <= INT_MAX) ws ->
  Forall (fun w => index_of_word (slash_word w) = fst w) ws
  /\ map index_of_word (tl (words line)) = map fst ws
  /\ (forall a b c, map fst ws = [a; b; c] ->
        process_line num_get_float g line r
        = Continue (push_faces r [tri a b c]))
  /\ (forall a b c d, map fst ws = [a; b; c; d] ->
        process_line num_get_float g line r
        = Continue (push_faces r [tri a b c; tri c d a]))
  /\ (forall pre rest : string,
        index_of_word (pre ++ "/" ++ rest) = index_of_word pre).
Proof.
  intros Hf Hw Hr.
  assert (Hi : map index_of_word (tl (words line)) = map fst ws)
    by (rewrite Hw; now apply indices_of_slash_words).
  split; [| split; [exact Hi |]].
  - revert Hr. apply Forall_impl. apply index_of_slash_word.
  - rewrite (process_face_line _ _ _ _ Hf), Hi. repeat split.
    + now intros a b c ->.
    + now intros a b c d ->.
    + apply index_of_word_slash.
Qed.

Example slash_words :
  map index_of_word ["7/2/3"; "7//3"; "7/2"; "12"] = [7; 7; 7; 12].
Proof. reflexivity. Qed.

End SlashFacts.

Import SlashFacts.

(* ================================================================= *)
(** ** The reading loop *)

Module ReaderFacts.

#[local] Open Scope string_scope.
#[local] Open Scope Z_scope.

(** What is known when [load] hands a mesh to the second half of [main]. *)
Lemma load_ready (num_get_float : float_reader) (I : Indet)
    (argv : list string) (file : string -> option string)
    (r : reader) (padding : Z) (dx : float) (filename : string) :
  load num_get_float I argv file = Ready r padding dx filename ->
  exists a0 arg2 arg3 content,
    argv = [a0; filename; arg2; arg3]
    /\ is_obj_name filename = true
    /\ file filename = Some content
    /\ read_loop num_get_float (line_indets I) (getlines content) initial
       = Continue r
    /\ dx = parse_dx num_get_float I arg2
    /\ padding = parse_padding I arg3.
Proof.
  unfold load.
  destruct argv as [| a0 [| a1 [| a2 [| a3 [| a4 l]]]]]; try discriminate.
  destruct (is_obj_name a1) eqn:Hn; cbn [negb]; [| discriminate].
  destruct (file a1) as [content |] eqn:Hfile; [| discriminate].
  destruct (read_loop _ _ _ _) as [r' | code last] eqn:Hr; [| discriminate].
  intros [= <- <- <- <-].
  exists a0, a2, a3, content. repeat split; assumption.
Qed.

Lemma zero_based_word (line w : string) :
  In w (tl (words line)) -> zero_based line (uint (index_of_word w - 1)).
Proof.
  intros Hw. exists w. repeat split; [assumption |].
  intros H1. pose proof (num_get_int_range w) as Hr.
  unfold index_of_word in *. unfold INT_MAX, INT_MIN in Hr.
  unfold uint. apply Z.mod_small. lia.
Qed.

Lemma process_line_faces (num_get_float : float_reader) (g : line_indet)
    (line : string) (r r' : reader) :
  process_line num_get_float g line r = Continue r' ->
  forall t, In t (faceList r') ->
    In t (faceList r)
    \/ (is_face_line line = true
        /\ forall c, In c (components t) -> zero_based line c).
Proof.
  intros H t Ht.
  destruct (is_face_line line) eqn:Hf.
  - rewrite (process_face_line _ _ _ _ Hf) in H.
    assert (Hw : forall w, In w (tl (words line)) ->
                 zero_based line (uint (index_of_word w - 1)))
      by apply zero_based_word.
    destruct (tl (words line)) as [| w1 [| w2 [| w3 [| w4 [| w5 ws]]]]];
      cbn in H; try discriminate; injection H as <-;
      cbn [push_faces faceList] in Ht; apply in_app_or in Ht as [Ht | Ht];
      try (now left); right; split; try reflexivity; cbn in Ht;
      intuition (subst t; cbn in *;
                 intuition (subst; apply Hw; cbn; tauto)).
  - unfold process_line in H. rewrite Hf in H.
    destruct (is_vertex_line line).
    + destruct (update_minmax _ _ _). injection H as <-. now left.
    + injection H as <-. now left.
Qed.

Lemma read_loop_faces (num_get_float : float_reader) (lines : list string) :
  forall (g : nat -> line_indet) (r0 r : reader),
  read_loop num_get_float g lines r0 = Continue r ->
  forall t, In t (faceList r) ->
    In t (faceList r0)
    \/ exists line, In line lines /\ is_face_line line = true
         /\ forall c, In c (components t) -> zero_based line c.
Proof.
  induction lines as [| line lines IH]; intros g r0 r H t Ht; cbn in H.
  - injection H as <-. now left.
  - destruct (process_line num_get_float (g 0%nat) line r0) as [r1 | ? ?] eqn:H1;
      [| discriminate].
    destruct (IH _ _ _ H t Ht) as [Hin | (l & Hl & Hf & Hc)].
    + destruct (process_line_faces _ _ _ _ _ H1 t Hin) as [H0 | [Hf Hc]].
      * now left.
      * right. exists line. cbn. auto.
    + right. exists l. cbn. auto.
Qed.

(** C4.  Every component of every triangle that [main] hands to the
    builder is an index read from a face line of the file, less one (as an
    [unsigned int]); for an index of at least 1, as the OBJ convention has
    them, it is exactly the index minus 1, so the triples are 0-based. *)
Theorem face_indices_zero_based (num_get_float : float_reader) (I : Indet)
    (argv : list string) (file : string -> option string)
    (r : reader) (padding : Z) (dx : float) (filename : string) :
  load num_get_float I argv file = Ready r padding dx filename ->
  forall t c, In t (faceList r) -> In c (components t) ->
  exists content line w,
    file filename = Some content
    /\ In line (getlines content) /\ is_face_line line = true
    /\ In w (tl (words line))
    /\ c = uint (index_of_word w - 1)
    /\ (1 <= index_of_word w -> c = index_of_word w - 1).
Proof.
  intros H t c Ht Hc.
  destruct (load_ready _ _ _ _ _ _ _ _ H)
    as (a0 & a2 & a3 & content & _ & _ & Hfile & Hread & _).
  destruct (read_loop_faces _ _ _ _ _ Hread t Ht) as [[] | (l & Hl & Hf & Hz)].
  destruct (Hz c Hc) as (w & Hw & Hc1 & Hc2).
  exists content, l, w. repeat split; assumption.
Qed.

End ReaderFacts.

Import ReaderFacts.
(* ================================================================= *)
(** ** The bounding box *)

Module BoxFacts.

#[local] Open Scope string_scope.
#[local] Open Scope Z_scope.

(** The reading loop appends to [vertList] and folds [update_minmax] over
    what it appends. *)
Lemma process_line_box (num_get_float : float_reader) (g : line_indet)
    (line : string) (r r' : reader) :
  process_line num_get_float g line r = Continue r' ->
  exists vs, vertList r' = (vertList r ++ vs)%list
    /\ (min_box r', max_box r') = bound_box vs (min_box r, max_box r)
    /\ (is_vertex_line line = false -> vs = []).
Proof.
  unfold process_line. destruct (is_vertex_line line).
  - destruct (update_minmax _ _ _) as [mn mx] eqn:Hu. intros [= <-].
    exists [read_point num_get_float line (point_indet g)]. cbn.
    rewrite Hu. repeat split. discriminate.
  - destruct (is_face_line line).
    + destruct (face_loop _ _ _); [| discriminate]. intros [= <-].
      exists []. cbn. rewrite app_nil_r. auto.
    + intros [= <-]. exists []. cbn. rewrite app_nil_r. auto.
Qed.

Lemma bound_box_app (us vs : list Vec3f) (box : Vec3f * Vec3f) :
  bound_box (us ++ vs) box = bound_box vs (bound_box us box).
Proof. apply fold_left_app. Qed.

Lemma read_loop_box (num_get_float : float_reader) (lines : list string) :
  forall (g : nat -> line_indet) (r0 r : reader),
  read_loop num_get_float g lines r0 = Continue r ->
  exists vs, vertList r = (vertList r0 ++ vs)%list
    /\ (min_box r, max_box r) = bound_box vs (min_box r0, max_box r0)
    /\ (Forall (fun l => is_vertex_line l = false) lines -> vs = []).
Proof.
  induction lines as [| line lines IH]; intros g r0 r H; cbn in H.
  - injection H as <-. exists []. cbn. rewrite app_nil_r. auto.
  - destruct (process_line num_get_float (g 0%nat) line r0) as [r1 | ? ?] eqn:H1;
      [| discriminate].
    destruct (process_line_box _ _ _ _ _ H1) as (us & Hu & Hb & Hn).
    destruct (IH _ _ _ H) as (vs & Hv & Hb' & Hn').
    exists (us ++ vs)%list. repeat split.
    + now rewrite Hv, Hu, app_assoc.
    + now rewrite bound_box_app, <- Hb.
    + intros HF. inversion HF; subst. rewrite Hn, Hn'; auto.
Qed.

(** Along one axis the box is a running minimum and a running maximum. *)
Lemma bound_box_coord (k : axis) (vs : list Vec3f) :
  forall mn mx : Vec3f,
  coord k (fst (bound_box vs (mn, mx)))
  = fold_left (fun m c => fmin c m) (map (coord k) vs) (coord k mn)
  /\ coord k (snd (bound_box vs (mn, mx)))
     = fold_left (fun m c => fmax c m) (map (coord k) vs) (coord k mx).
Proof.
  induction vs as [| v vs IH]; intros mn mx.
  - cbn. auto.
  - change (bound_box (v :: vs) (mn, mx))
      with (bound_box vs (vzip fmin v mn, vzip fmax v mx)).
    destruct (IH (vzip fmin v mn) (vzip fmax v mx)) as [E1 E2].
    split; (etransitivity; [eassumption |]); destruct k; reflexivity.
Qed.

Lemma running_min (xs : list float) :
  forall init, is_nan init = false ->
  Forall (fun x => is_nan x = false) xs ->
  let m := fold_left (fun m c => fmin c m) xs init in
  is_nan m = false /\ fle m init = true
  /\ (forall x, In x xs -> fle m x = true)
  /\ (m = init \/ In m xs).
Proof.
  induction xs as [| x xs IH]; intros init Hi Hx; cbn.
  - repeat split; auto with float_order; intros ? [].
  - inversion Hx as [| ? ? Hx0 Hxs]; subst.
    destruct (fmin_le x init Hx0 Hi) as [L1 L2].
    assert (Hn : is_nan (fmin x init) = false)
      by (destruct (fmin_cases x init) as [-> | ->]; assumption).
    destruct (IH (fmin x init) Hn Hxs) as (Hm & Hle & Hall & Hin).
    repeat split.
    + exact Hm.
    + eapply fle_trans; [.. | exact Hle | exact L2]; assumption.
    + intros y [<- | Hy]; [| now apply Hall].
      eapply fle_trans; [.. | exact Hle | exact L1]; assumption.
    + destruct Hin as [-> | Hin]; [| right; now right].
      destruct (fmin_cases x init) as [-> | ->]; [right; now left | now left].
Qed.

Lemma running_max (xs : list float) :
  forall init, is_nan init = false ->
  Forall (fun x => is_nan x = false) xs ->
  let m := fold_left (fun m c => fmax c m) xs init in
  is_nan m = false /\ fle init m = true
  /\ (forall x, In x xs -> fle x m = true)
  /\ (m = init \/ In m xs).
Proof.
  induction xs as [| x xs IH]; intros init Hi Hx; cbn.
  - repeat split; auto with float_order; intros ? [].
  - inversion Hx as [| ? ? Hx0 Hxs]; subst.
    destruct (fmax_ge x init Hx0 Hi) as [L1 L2].
    assert (Hn : is_nan (fmax x init) = false)
      by (destruct (fmax_cases x init) as [-> | ->]; assumption).
    destruct (IH (fmax x init) Hn Hxs) as (Hm & Hle & Hall & Hin).
    repeat split.
    + exact Hm.
    + eapply fle_trans; [.. | exact L2 | exact Hle]; assumption.
    + intros y [<- | Hy]; [| now apply Hall].
      eapply fle_trans; [.. | exact L1 | exact Hle]; assumption.
    + destruct Hin as [-> | Hin]; [| right; now right].
      destruct (fmax_cases x init) as [-> | ->]; [right; now left | now left].
Qed.

(** From the inside-out box, over at least one finite value, the running
    minimum is the minimum of the values and the running maximum their
    maximum. *)
Lemma minimum_from_sentinel (xs : list float) :
  xs <> [] -> Forall (fun x => finite32 x = true) xs ->
  is_minimum (fold_left (fun m c => fmin c m) xs FLT_MAX) xs
  /\ is_maximum (fold_left (fun m c => fmax c m) xs (fopp FLT_MAX)) xs.
Proof.
  intros Hne Hfin.
  assert (Hnan : Forall (fun x => is_nan x = false) xs).
  { eapply Forall_impl; [| exact Hfin]. apply finite32_not_nan. }
  destruct xs as [| x0 xs']; [congruence |].
  assert (H0 : finite32 x0 = true) by (now inversion Hfin).
  set (xs := x0 :: xs') in *.
  split.
  - destruct (running_min xs FLT_MAX eq_refl Hnan) as (Hm & Hle & Hall & Hin).
    split; [| exact Hall].
    destruct Hin as [Heq | Hin]; [| exact Hin].
    rewrite Heq in *.
    destruct (finite32_below_max x0 H0) as [Hlt | ->]; [| now left].
    exfalso. eapply (flt_not_fle x0 FLT_MAX); auto with float_order.
    apply Hall. now left.
  - destruct (running_max xs (fopp FLT_MAX) eq_refl Hnan)
      as (Hm & Hle & Hall & Hin).
    split; [| exact Hall].
    destruct Hin as [Heq | Hin]; [| exact Hin].
    rewrite Heq in *.
    destruct (finite32_above_min x0 H0) as [Hlt | ->]; [| now left].
    exfalso. eapply (flt_not_fle (fopp FLT_MAX) x0); auto with float_order.
    apply Hall. now left.
Qed.

End BoxFacts.

Import BoxFacts.
(* ================================================================= *)
(** ** The grid *)

Module GridFacts.

#[local] Open Scope string_scope.
#[local] Open Scope Z_scope.

Lemma fmul_comm (x y : float) : fmul x y = fmul y x.
Proof.
  destruct x as [sx | sx | | sx mx ex], y as [sy | sy | | sy my ey];
    cbn; try reflexivity; try (now rewrite xorb_comm).
  now rewrite xorb_comm, Pos.mul_comm, Z.add_comm.
Qed.

(** Multiplying by 1.0f changes nothing: the margin is [padding*dx] in
    every component. *)
Lemma fmul_fone_r (x : float) :
  valid_binary prec emax x = true -> fmul x fone = x.
Proof. intros H. rewrite fmul_comm. now apply fmul_fone. Qed.

Lemma to_uint_in_range (cast : float -> Z) (x : float) :
  in_uint_range x = true -> trunc x = Some (to_uint cast x).
Proof.
  unfold in_uint_range, to_uint. destruct (trunc x) as [z |]; [| discriminate].
  now intros ->.
Qed.

Lemma main_ready (num_get_float : float_reader) (passes : distance_field)
    (I : Indet) (argv : list string) (file : string -> option string)
    (r : reader) (padding : Z) (dx : float) (filename : string) :
  load num_get_float I argv file = Ready r padding dx filename ->
  main num_get_float passes I argv file
  = build_and_write passes I r padding dx filename.
Proof. unfold main. now intros ->. Qed.

Lemma loaded_box (num_get_float : float_reader) (I : Indet)
    (argv : list string) (file : string -> option string)
    (r : reader) (padding : Z) (dx : float) (filename : string) :
  load num_get_float I argv file = Ready r padding dx filename ->
  (min_box r, max_box r) = bound_box (vertList r) (inside_out_min, inside_out_max).
Proof.
  intros H.
  destruct (load_ready _ _ _ _ _ _ _ _ H)
    as (a0 & a2 & a3 & content & _ & _ & _ & Hread & _).
  destruct (read_loop_box _ _ _ _ _ Hread) as (vs & Hv & Hb & _).
  cbn in Hv. now subst vs.
Qed.

(** C2, as the code has it.  For an OBJ input with at least one vertex
    line and finite coordinates, padding p (after the clamp) and spacing
    dx: along every axis the box holds the minimum and the maximum of the
    parsed vertex positions; the origin handed to the builder is the
    minimum less the margin p·dx (computed as (p·dx)·1, which is p·dx
    whenever that product is a valid float); the dimension handed to the
    builder is the conversion to [unsigned int], which truncates, of
    ((max + margin) - (min - margin)) / dx, every operation rounded to
    single precision in this order. *)
Theorem grid_from_bounding_box (num_get_float : float_reader)
    (passes : distance_field) (I : Indet) (argv : list string)
    (file : string -> option string)
    (r : reader) (padding : Z) (dx : float) (filename : string) :
  load num_get_float I argv file = Ready r padding dx filename ->
  vertList r <> [] ->
  (forall v c, In v (vertList r) -> In c (components v) -> finite32 c = true) ->
  let origin := padded_min r padding dx in
  let n := sizes (cast_indet I) r padding dx in
  main num_get_float passes I argv file
  = match make_level_set3 passes (faceList r) (vertList r) origin dx
            (x0 n) (x1 n) (x2 n) with
    | None => PreconditionViolation
    | Some phi_grid => Written (outname filename) (sdf_record phi_grid origin dx)
    end
  /\ forall k : axis,
       let lo := coord k (min_box r) in
       let hi := coord k (max_box r) in
       let m := fmul (fmul (of_int padding) dx) fone in
       let q := fdiv (fsub (fadd hi m) (fsub lo m)) dx in
       is_minimum lo (map (coord k) (vertList r))
       /\ is_maximum hi (map (coord k) (vertList r))
       /\ coord k origin = fsub lo m
       /\ coord k n = to_uint (cast_indet I) q
       /\ (in_uint_range q = true -> trunc q = Some (coord k n))
       /\ (valid_binary prec emax (fmul (of_int padding) dx) = true ->
           m = fmul (of_int padding) dx).
Proof.
  intros Hload Hne Hfin origin n. split.
  - now rewrite (main_ready _ passes _ _ _ _ _ _ _ Hload).
  - intros k lo hi m q.
    pose proof (loaded_box _ _ _ _ _ _ _ _ Hload) as Hbox.
    destruct (bound_box_coord k (vertList r) inside_out_min inside_out_max)
      as [Hmin Hmax].
    rewrite <- Hbox in Hmin, Hmax. cbn [fst snd] in Hmin, Hmax.
    assert (Hne' : map (coord k) (vertList r) <> []).
    { destruct (vertList r); [congruence | discriminate]. }
    assert (Hfin' : Forall (fun x => finite32 x = true) (map (coord k) (vertList r))).
    { apply Forall_forall. intros x Hx. apply in_map_iff in Hx as (v & <- & Hv).
      apply (Hfin v); [exact Hv |]. destruct k; cbn; tauto. }
    destruct (minimum_from_sentinel _ Hne' Hfin') as [Lo Hi].
    assert (Es : coord k n = to_uint (cast_indet I) q) by (destruct k; reflexivity).
    repeat split.
    + unfold lo. rewrite Hmin. destruct k; apply Lo.
    + unfold lo. rewrite Hmin. destruct k; apply Lo.
    + unfold hi. rewrite Hmax. destruct k; apply Hi.
    + unfold hi. rewrite Hmax. destruct k; apply Hi.
    + destruct k; reflexivity.
    + exact Es.
    + intros Hq. rewrite Es. now apply to_uint_in_range.
    + apply fmul_fone_r.
Qed.

(** C2, as the claim words it, fails: for the vertices (0.5, 0.5, 0.5) and
    (1, 1, 1), dx = 0.02 and padding 2 the program derives 28 cells along
    every axis, where (max - min + 2·p·dx)/dx truncates to 29, in single
    precision as well as in exact arithmetic. *)
Lemma closed_form_off_by_one :
  match load Decimal.num_get_float indet_a diagonal_args files with
  | Ready r padding dx _ =>
      vertList r <> []
      /\ padding = 2
      /\ sizes (cast_indet indet_a) r padding dx = mkVec3 28 28 28
      /\ map (fun k => closed_form_float (coord k (min_box r))
                         (coord k (max_box r)) padding dx)
             [axis0; axis1; axis2] = [Some 29; Some 29; Some 29]
      /\ map (fun k => closed_form_exact (coord k (min_box r))
                         (coord k (max_box r)) padding dx)
             [axis0; axis1; axis2] = [29; 29; 29]
  | Stop _ _ => False
  end.
Proof.
  vm_compute. repeat split; discriminate.
Qed.

End GridFacts.

Import GridFacts.
(* ================================================================= *)
(** ** The array and the record written *)

Module RecordFacts.

#[local] Open Scope string_scope.
#[local] Open Scope Z_scope.

Section Blocks.

Context {A B : Type} (f : A -> list B) (n : nat).
Hypothesis block : forall x, List.length (f x) = n.



End Blocks.






End RecordFacts.

Import RecordFacts.

(* ================================================================= *)
(** ** main: refusal, padding, empty meshes *)

Module MainFacts.

#[local] Open Scope string_scope.
#[local] Open Scope Z_scope.

(** C1.  When the spacing parsed from the command line is <= 0, or a grid
    dimension derived from the box is <= 0, the builder refuses and [main]
    ends on the precondition violation: no distance field is produced and
    nothing is written. *)
Theorem invalid_grid_refused (num_get_float : float_reader)
    (passes : distance_field) (I : Indet) (argv : list string)
    (file : string -> option string)
    (r : reader) (padding : Z) (dx : float) (filename : string) :
  load num_get_float I argv file = Ready r padding dx filename ->
  let n := sizes (cast_indet I) r padding dx in
  fle dx fzero = true \/ x0 n <= 0 \/ x1 n <= 0 \/ x2 n <= 0 ->
  main num_get_float passes I argv file = PreconditionViolation
  /\ forall out data, main num_get_float passes I argv file <> Written out data.
Proof.
  intros Hload n Hbad.
  assert (H : main num_get_float passes I argv file = PreconditionViolation).
  { rewrite (main_ready _ passes _ _ _ _ _ _ _ Hload).
    unfold build_and_write, make_level_set3. fold n.
    replace (fle dx fzero || (x0 n <=? 0) || (x1 n <=? 0) || (x2 n <=? 0))
      with true; [reflexivity |].
    symmetry. rewrite !orb_true_iff, !Z.leb_le. tauto. }
  split; [exact H |]. intros out data. rewrite H. discriminate.
Qed.

Lemma clamp_padding_max (p : Z) : clamp_padding p = Z.max p 1.
Proof. unfold clamp_padding. destruct (Z.ltb_spec p 1); lia. Qed.

(** The padding argument decides nothing but the padding: [load] stops
    on it exactly when it stops on any other one. *)
Lemma load_padding_arg (num_get_float : float_reader) (I : Indet)
    (a0 filename arg2 arg3 other : string) (file : string -> option string) :
  load num_get_float I [a0; filename; arg2; other] file
  = match load num_get_float I [a0; filename; arg2; arg3] file with
    | Stop code last => Stop code last
    | Ready r _ dx name => Ready r (parse_padding I other) dx name
    end.
Proof.
  unfold load.
  destruct (is_obj_name filename); cbn [negb]; [| reflexivity].
  destruct (file filename) as [content |]; [| reflexivity].
  destruct (read_loop _ _ _ _); reflexivity.
Qed.

(** C6.  With p the integer read from the padding argument, the padding
    that [main] goes on with is max(p, 1), and it is by the margin of
    max(p, 1) cells that the box is widened: the origin handed to the
    builder and written to the file is the minimum corner less
    max(p, 1)·dx, the dimensions are those of the box between it and the
    maximum corner plus max(p, 1)·dx.  A value below 1 is not an error: the
    run is the run with the padding argument "1", and no padding argument
    makes [main] stop where another one does not. *)
Theorem padding_clamped (num_get_float : float_reader)
    (passes : distance_field) (I : Indet)
    (a0 filename arg2 arg3 : string) (file : string -> option string)
    (r : reader) (padding : Z) (dx : float) (name : string) :
  load num_get_float I [a0; filename; arg2; arg3] file
  = Ready r padding dx name ->
  let p := get_int (open arg3) (padding_indet I) in
  let m := fmul (fmul (of_int (Z.max p 1)) dx) fone in
  let lo := vmap (fun c => fsub c m) (min_box r) in
  let hi := vmap (fun c => fadd c m) (max_box r) in
  let n := vmap (fun c => to_uint (cast_indet I) (fdiv c dx)) (vzip fsub hi lo) in
  padding = Z.max p 1
  /\ main num_get_float passes I [a0; filename; arg2; arg3] file
     = match make_level_set3 passes (faceList r) (vertList r) lo dx
               (x0 n) (x1 n) (x2 n) with
       | Some phi_grid => Written (outname name) (sdf_record phi_grid lo dx)
       | None => PreconditionViolation
       end
  /\ (p < 1 ->
      main num_get_float passes I [a0; filename; arg2; arg3] file
      = main num_get_float passes I [a0; filename; arg2; "1"] file)
  /\ (forall other : string,
        load num_get_float I [a0; filename; arg2; other] file
        = Ready r (parse_padding I other) dx name).
Proof.
  intros Hload p m lo hi n.
  assert (Hp : parse_padding I arg3 = Z.max p 1)
    by (unfold parse_padding; apply clamp_padding_max).
  assert (Hpad : padding = Z.max p 1).
  { destruct (load_ready _ _ _ _ _ _ _ _ Hload)
      as (b0 & b2 & b3 & content & Hargv & _ & _ & _ & _ & Hpad).
    injection Hargv as -> -> -> ->. now rewrite <- Hp. }
  assert (Hother : forall other : string,
             load num_get_float I [a0; filename; arg2; other] file
             = Ready r (parse_padding I other) dx name).
  { intros other. rewrite (load_padding_arg _ _ _ _ _ arg3), Hload.
    reflexivity. }
  split; [exact Hpad |]. split; [| split; [| exact Hother]].
  - rewrite (main_ready _ passes _ _ _ _ _ _ _ Hload), Hpad.
    destruct r as [verts faces [a1 a2 a3] [b1 b2 b3] ign]. reflexivity.
  - intros Hlt.
    rewrite (main_ready _ passes _ _ _ _ _ _ _ Hload),
            (main_ready _ passes _ _ _ _ _ _ _ (Hother "1")), Hpad.
    replace (Z.max p 1) with 1 by lia. reflexivity.
Qed.



(** With dx = 0.1 and one cell of padding, the extent derived from the
    inside-out box is minus infinity on every axis: the conversion of
    line 119 is not defined. *)
Example empty_mesh_extent :
  let r := mkReader [] [] inside_out_min inside_out_max 0 in
  let dx := fst (fst (Decimal.num_get_float "0.1")) in
  extent r 1 dx = mkVec3 (S754_infinity true) (S754_infinity true)
                         (S754_infinity true)
  /\ in_uint_range (S754_infinity true) = false.
Proof. vm_compute. split; reflexivity. Qed.

End MainFacts.

Import MainFacts.

(* ================================================================= *)
(** ** Determinism *)

Module Determinism.

#[local] Open Scope string_scope.
#[local] Open Scope Z_scope.

(** An extraction that passes the sentry overwrites its target. *)
Lemma get_float_overwrites (num_get_float : float_reader) (st : istream)
    (old old' : float) :
  sentry st <> None ->
  get_float num_get_float st old = get_float num_get_float st old'.
Proof. unfold get_float. destruct (sentry st); [reflexivity | congruence]. Qed.

Lemma get_int_overwrites (st : istream) (old old' : Z) :
  sentry st <> None -> get_int st old = get_int st old'.
Proof. unfold get_int. destruct (sentry st); [reflexivity | congruence]. Qed.

Lemma parse_dx_determined (num_get_float : float_reader) (I1 I2 : Indet)
    (arg : string) :
  has_field arg = true ->
  parse_dx num_get_float I1 arg = parse_dx num_get_float I2 arg.
Proof.
  unfold has_field, parse_dx. intros H. f_equal.
  apply get_float_overwrites. destruct (sentry (open arg)); discriminate.
Qed.

Lemma parse_padding_determined (I1 I2 : Indet) (arg : string) :
  has_field arg = true -> parse_padding I1 arg = parse_padding I2 arg.
Proof.
  unfold has_field, parse_padding. intros H. f_equal.
  apply get_int_overwrites. destruct (sentry (open arg)); discriminate.
Qed.

Lemma read_point_determined (num_get_float : float_reader) (line : string)
    (p p' : Vec3f) :
  reads_three_floats num_get_float line = true ->
  read_point num_get_float line p = read_point num_get_float line p'.
Proof.
  unfold reads_three_floats, read_point.
  destruct (get_char (open line) Ascii.zero) as [c d0].
  destruct (sentry d0) eqn:S0.
  2:{ destruct (get_float num_get_float d0 fzero) as [? d1].
      destruct (get_float num_get_float d1 fzero). discriminate. }
  assert (N0 : sentry d0 <> None) by congruence.
  rewrite (get_float_overwrites _ d0 (x0 p) fzero N0),
          (get_float_overwrites _ d0 (x0 p') fzero N0).
  destruct (get_float num_get_float d0 fzero) as [v0 d1].
  destruct (sentry d1) eqn:S1.
  2:{ destruct (get_float num_get_float d1 fzero). discriminate. }
  assert (N1 : sentry d1 <> None) by congruence.
  rewrite (get_float_overwrites _ d1 (x1 p) fzero N1),
          (get_float_overwrites _ d1 (x1 p') fzero N1).
  destruct (get_float num_get_float d1 fzero) as [v1 d2].
  destruct (sentry d2) eqn:S2; [| discriminate].
  assert (N2 : sentry d2 <> None) by congruence.
  now rewrite (get_float_overwrites _ d2 (x2 p) fzero N2),
              (get_float_overwrites _ d2 (x2 p') fzero N2).
Qed.

Lemma process_line_determined (num_get_float : float_reader)
    (g g' : line_indet) (line : string) (r : reader) :
  (is_vertex_line line = true -> reads_three_floats num_get_float line = true) ->
  process_line num_get_float g line r = process_line num_get_float g' line r.
Proof.
  intros Hv. destruct (is_face_line line) eqn:Hf.
  - now rewrite !(process_face_line _ _ _ _ Hf).
  - unfold process_line. rewrite Hf.
    destruct (is_vertex_line line); [| reflexivity].
    now rewrite (read_point_determined _ _ (point_indet g) (point_indet g')
                   (Hv eq_refl)).
Qed.

Lemma read_loop_determined (num_get_float : float_reader) (lines : list string) :
  Forall (fun line => is_vertex_line line = true ->
                      reads_three_floats num_get_float line = true) lines ->
  forall (g g' : nat -> line_indet) (r : reader),
  read_loop num_get_float g lines r = read_loop num_get_float g' lines r.
Proof.
  induction 1 as [| line lines Hl _ IH]; intros g g' r; cbn; [reflexivity |].
  rewrite (process_line_determined _ (g 0%nat) (g' 0%nat) _ _ Hl).
  destruct (process_line num_get_float (g' 0%nat) line r); [apply IH | reflexivity].
Qed.

Lemma load_determined (num_get_float : float_reader) (I1 I2 : Indet)
    (argv : list string) (file : string -> option string) :
  well_formed num_get_float argv file ->
  load num_get_float I1 argv file = load num_get_float I2 argv file.
Proof.
  unfold well_formed, load.
  destruct argv as [| a0 [| a1 [| a2 [| a3 [| a4 l]]]]]; try reflexivity.
  intros (H2 & H3 & Hfile).
  destruct (is_obj_name a1); cbn [negb]; [| reflexivity].
  destruct (file a1) as [content |]; [| reflexivity].
  rewrite (read_loop_determined _ _ Hfile (line_indets I1) (line_indets I2)).
  now rewrite (parse_dx_determined _ I1 I2 _ H2),
              (parse_padding_determined I1 I2 _ H3).
Qed.

Lemma to_uint_determined (cast cast' : float -> Z) (x : float) :
  in_uint_range x = true -> to_uint cast x = to_uint cast' x.
Proof.
  unfold in_uint_range, to_uint. destruct (trunc x); [| discriminate].
  now intros ->.
Qed.

Lemma build_and_write_determined (passes : distance_field) (I1 I2 : Indet)
    (r : reader) (padding : Z) (dx : float) (filename : string) :
  casts_defined r padding dx ->
  build_and_write passes I1 r padding dx filename
  = build_and_write passes I2 r padding dx filename.
Proof.
  intros H. unfold build_and_write.
  replace (sizes (cast_indet I2) r padding dx)
    with (sizes (cast_indet I1) r padding dx); [reflexivity |].
  unfold sizes, Vec3ui_of_Vec3f, vmap. f_equal.
  - apply to_uint_determined, (H axis0).
  - apply to_uint_determined, (H axis1).
  - apply to_uint_determined, (H axis2).
Qed.

(** C7, as the code has it.  On an input whose two numeric arguments each
    hold a field, whose vertex lines each hold three, and for which the
    three conversions to [unsigned int] are defined, the outcome of [main],
    record written included, does not depend on the indeterminate values:
    two runs agree bit for bit.  (The builder is a function of its
    arguments, as the spec has it.) *)
Theorem run_determined (num_get_float : float_reader)
    (passes : distance_field) (I1 I2 : Indet) (argv : list string)
    (file : string -> option string) :
  well_formed num_get_float argv file ->
  (forall r padding dx filename,
     load num_get_float I1 argv file = Ready r padding dx filename ->
     casts_defined r padding dx) ->
  main num_get_float passes I1 argv file
  = main num_get_float passes I2 argv file.
Proof.
  intros Hwf Hcast. unfold main.
  rewrite <- (load_determined _ I1 I2 _ _ Hwf).
  destruct (load num_get_float I1 argv file) as [code last | r padding dx name]
    eqn:Hload; [reflexivity |].
  apply build_and_write_determined. now apply (Hcast _ _ _ name).
Qed.

(** C7, as the claim words it, fails: with an empty dx argument nothing is
    extracted into [dx], and two runs on the same file and the same
    arguments write different fields according to what [dx] happened to
    hold (0.5 in one run, 1 in the other). *)
Lemma empty_argument_two_outcomes :
  main Decimal.num_get_float flat_field indet_a
       ["SDFGen"; "cube.obj"; ""; "1"] files
  <> main Decimal.num_get_float flat_field indet_b
          ["SDFGen"; "cube.obj"; ""; "1"] files.
Proof. vm_compute. discriminate. Qed.

(** Two more ways to the same end: a vertex line with two numbers leaves
    the third coordinate of [point] as it was, and a mesh without a vertex
    makes the conversions of line 119 undefined. *)
Example short_vertex_line_two_points :
  read_point Decimal.num_get_float "v 1 2" (point_indet (line_indets indet_a 0%nat))
  <> read_point Decimal.num_get_float "v 1 2" (point_indet (line_indets indet_b 0%nat)).
Proof. vm_compute. discriminate. Qed.

Example empty_mesh_two_outcomes :
  main Decimal.num_get_float flat_field indet_a
       ["SDFGen"; "faces.obj"; "0.1"; "1"] files
  <> main Decimal.num_get_float flat_field indet_b
          ["SDFGen"; "faces.obj"; "0.1"; "1"] files.
Proof. vm_compute. discriminate. Qed.

End Determinism.

Import Determinism.

(* ================================================================= *)
(** ** The theorems at sample inputs *)

Module Witnesses.

#[local] Open Scope string_scope.
#[local] Open Scope Z_scope.

Lemma cube_loaded :
  load Decimal.num_get_float indet_a cube_args files
  = Ready cube_mesh 1 half "cube.obj".
Proof. vm_compute. reflexivity. Defined.

Lemma diagonal_loaded :
  load Decimal.num_get_float indet_a diagonal_args files
  = Ready diagonal_mesh 2 fiftieth "diagonal.obj".
Proof. vm_compute. reflexivity. Defined.

(** The cube with dx = 0: refused. *)
Lemma invalid_grid_refused_witness :
  load Decimal.num_get_float indet_a ["SDFGen"; "cube.obj"; "0"; "1"] files
  = Ready cube_mesh 1 fzero "cube.obj"
  /\ fle fzero fzero = true
  /\ main Decimal.num_get_float flat_field indet_a
          ["SDFGen"; "cube.obj"; "0"; "1"] files = PreconditionViolation.
Proof.
  assert (H : load Decimal.num_get_float indet_a
                   ["SDFGen"; "cube.obj"; "0"; "1"] files
              = Ready cube_mesh 1 fzero "cube.obj")
    by (vm_compute; reflexivity).
  split; [exact H |]. split; [reflexivity |].
  exact (proj1 (invalid_grid_refused Decimal.num_get_float flat_field indet_a
                  _ files cube_mesh 1 fzero "cube.obj" H
                  (or_introl eq_refl))).
Defined.

(** The two-vertex mesh: minimum, maximum and dimension along the first
    axis. *)
Lemma grid_from_bounding_box_witness :
  vertList diagonal_mesh <> []
  /\ is_minimum (x0 (min_box diagonal_mesh))
                (map (coord axis0) (vertList diagonal_mesh))
  /\ is_maximum (x0 (max_box diagonal_mesh))
                (map (coord axis0) (vertList diagonal_mesh))
  /\ trunc (fdiv (fsub (fadd (x0 (max_box diagonal_mesh))
                             (fmul (fmul (of_int 2) fiftieth) fone))
                       (fsub (x0 (min_box diagonal_mesh))
                             (fmul (fmul (of_int 2) fiftieth) fone)))
                 fiftieth)
     = Some (x0 (sizes (cast_indet indet_a) diagonal_mesh 2 fiftieth)).
Proof.
  assert (Hne : vertList diagonal_mesh <> []) by discriminate.
  assert (Hfin : forall v c, In v (vertList diagonal_mesh) ->
                             In c (components v) -> finite32 c = true).
  { intros v c Hv Hc. cbn in Hv.
    destruct Hv as [<- | [<- | []]]; cbn in Hc;
      destruct Hc as [<- | [<- | [<- | []]]]; reflexivity. }
  destruct (proj2 (grid_from_bounding_box Decimal.num_get_float flat_field
                     indet_a diagonal_args files diagonal_mesh 2 fiftieth
                     "diagonal.obj" diagonal_loaded Hne Hfin) axis0)
    as (Hmin & Hmax & _ & _ & Htrunc & _).
  split; [exact Hne |]. split; [exact Hmin |]. split; [exact Hmax |].
  apply Htrunc. vm_compute. reflexivity.
Defined.

(** A quad. *)
Lemma face_line_triangles_witness :
  is_face_line "f 1 2 3 4" = true
  /\ process_line Decimal.num_get_float (line_indets indet_a 0%nat)
                  "f 1 2 3 4" initial
     = Continue (push_faces initial [tri 1 2 3; tri 3 4 1]).
Proof.
  split; [reflexivity |].
  exact (proj1 (proj2 (face_line_triangles Decimal.num_get_float
                         (line_indets indet_a 0%nat) "f 1 2 3 4" initial
                         eq_refl))
           1 2 3 4 eq_refl).
Defined.

(** The first component of the first triangle of the cube. *)
Lemma face_indices_zero_based_witness :
  In (mkVec3 0 3 2) (faceList cube_mesh)
  /\ exists content line w,
       files "cube.obj" = Some content
       /\ In line (getlines content) /\ is_face_line line = true
       /\ In w (tl (words line))
       /\ 0 = uint (index_of_word w - 1)
       /\ (1 <= index_of_word w -> 0 = index_of_word w - 1).
Proof.
  assert (Ht : In (mkVec3 0 3 2) (faceList cube_mesh)) by (left; reflexivity).
  split; [exact Ht |].
  exact (face_indices_zero_based Decimal.num_get_float indet_a cube_args files
           cube_mesh 1 half "cube.obj" cube_loaded (mkVec3 0 3 2) 0 Ht
           (or_introl eq_refl)).
Defined.


(** Two runs on the cube with different indeterminate values. *)
Lemma run_determined_witness :
  well_formed Decimal.num_get_float cube_args files
  /\ casts_defined cube_mesh 1 half
  /\ main Decimal.num_get_float flat_field indet_a cube_args files
     = main Decimal.num_get_float flat_field indet_b cube_args files.
Proof.
  assert (Hwf : well_formed Decimal.num_get_float cube_args files).
  { cbn. repeat split.
    repeat (constructor; [intros H; first [reflexivity | discriminate H] |]).
    constructor. }
  assert (Hc : casts_defined cube_mesh 1 half)
    by (intros k; destruct k; reflexivity).
  split; [exact Hwf |]. split; [exact Hc |].
  apply run_determined; [exact Hwf |].
  intros r padding dx filename H.
  rewrite cube_loaded in H. injection H as <- <- <- <-. exact Hc.
Defined.

(** A face line with five indices. *)
Lemma fifth_index_overruns_witness :
  is_face_line "f 1 2 3 4 5" = true
  /\ tl (words "f 1 2 3 4 5") = ["1"; "2"; "3"; "4"; "5"]
  /\ store [1; 2; 3; 4] 4 5 = None
  /\ process_line Decimal.num_get_float (line_indets indet_a 0%nat)
                  "f 1 2 3 4 5" initial
     = Exit 1 (mkStore 4 5 false).
Proof.
  split; [reflexivity |]. split; [reflexivity |].
  exact (proj2 (fifth_index_overruns Decimal.num_get_float
                  (line_indets indet_a 0%nat) "f 1 2 3 4 5" initial
                  "1" "2" "3" "4" "5" [] eq_refl eq_refl)).
Defined.


(** The cube with the padding argument "-3": the padding is 1 and the run
    is the run with the argument "1". *)
Lemma padding_clamped_witness :
  load Decimal.num_get_float indet_a ["SDFGen"; "cube.obj"; "0.5"; "-3"] files
  = Ready cube_mesh 1 half "cube.obj"
  /\ get_int (open "-3") (padding_indet indet_a) = -3
  /\ main Decimal.num_get_float flat_field indet_a
          ["SDFGen"; "cube.obj"; "0.5"; "-3"] files
     = Written "cube.sdf" cube_record.
Proof.
  assert (H : load Decimal.num_get_float indet_a
                   ["SDFGen"; "cube.obj"; "0.5"; "-3"] files
              = Ready cube_mesh 1 half "cube.obj")
    by (vm_compute; reflexivity).
  assert (Hp : get_int (open "-3") (padding_indet indet_a) = -3)
    by reflexivity.
  split; [exact H |]. split; [exact Hp |].
  destruct (padding_clamped Decimal.num_get_float flat_field indet_a
              "SDFGen" "cube.obj" "0.5" "-3" files cube_mesh 1 half "cube.obj" H)
    as (_ & _ & Hone & _).
  rewrite Hone by (rewrite Hp; lia). vm_compute. reflexivity.
Defined.

(** A triangle whose words carry texture and normal indices. *)
Lemma slash_suffix_discarded_witness :
  is_face_line "f 7/2/3 8//3 9/1" = true
  /\ map index_of_word (tl (words "f 7/2/3 8//3 9/1")) = [7; 8; 9]
  /\ process_line Decimal.num_get_float (line_indets indet_a 0%nat)
                  "f 7/2/3 8//3 9/1" initial
     = Continue (push_faces initial [tri 7 8 9]).
Proof.
  assert (Hw : tl (words "f 7/2/3 8//3 9/1")
               = map slash_word [(7, "2/3"); (8, "/3"); (9, "1")])
    by reflexivity.
  assert (Hr : Forall (fun w : Z * string => INT_MIN <= fst w <= INT_MAX)
                      [(7, "2/3"); (8, "/3"); (9, "1")]).
  { repeat constructor; cbn; unfold INT_MIN, INT_MAX; lia. }
  destruct (slash_suffix_discarded Decimal.num_get_float
              (line_indets indet_a 0%nat) "f 7/2/3 8//3 9/1" initial
              [(7, "2/3"); (8, "/3"); (9, "1")] eq_refl Hw Hr)
    as (_ & Hi & H3 & _).
  split; [reflexivity |]. split; [exact Hi |].
  exact (H3 7 8 9 eq_refl).
Defined.

End Witnesses.

(* ================================================================= *)
(** ** File names and the ways out of main *)

Module InvocationFacts.

#[local] Open Scope string_scope.
#[local] Open Scope Z_scope.

Lemma string_length_app (s t : string) :
  String.length (s ++ t) = (String.length s + String.length t)%nat.
Proof. induction s as [| c s IH]; cbn; [reflexivity | now rewrite IH]. Qed.

Lemma app_empty_r (s : string) : s ++ "" = s.
Proof. induction s as [| c s IH]; cbn; [reflexivity | now rewrite IH]. Qed.

Lemma substring_past (s t : string) (m : nat) :
  substring (String.length s) m (s ++ t) = substring 0 m t.
Proof. induction s as [| c s IH]; cbn; [reflexivity | exact IH]. Qed.

Lemma substring_front (s t : string) :
  substring 0 (String.length s) (s ++ t) = s.
Proof.
  induction s as [| c s IH]; cbn; [now destruct t | now rewrite IH].
Qed.

Lemma substring_whole (s : string) : substring 0 (String.length s) s = s.
Proof. induction s as [| c s IH]; cbn; [reflexivity | now rewrite IH]. Qed.

Lemma substring_split (n : nat) :
  forall s : string, (n <= String.length s)%nat ->
  s = substring 0 n s ++ substring n (String.length s - n) s.
Proof.
  induction n as [| n IH]; intros s Hn.
  - rewrite Nat.sub_0_r, substring_whole. now destruct s.
  - destruct s as [| c s]; cbn in Hn; [lia |].
    cbn. f_equal. apply IH. lia.
Qed.

Lemma obj_name_split (filename : string) :
  is_obj_name filename = true ->
  exists stem, stem <> "" /\ filename = stem ++ ".obj".
Proof.
  unfold is_obj_name. intros H. apply andb_true_iff in H as [Hlen Hsuf].
  apply negb_true_iff, Nat.ltb_ge in Hlen. apply String.eqb_eq in Hsuf.
  pose proof (substring_split (String.length filename - 4) filename) as Hs.
  replace (String.length filename - (String.length filename - 4))%nat
    with 4%nat in Hs by lia.
  rewrite Hsuf in Hs.
  exists (substring 0 (String.length filename - 4) filename). split.
  - intros Hstem. rewrite Hstem in Hs. cbn [append] in Hs.
    rewrite Hs in Hlen by lia. cbn in Hlen. lia.
  - apply Hs. lia.
Qed.

(** A name is accepted exactly when it is a stem of at least one character
    followed by ".obj", in lower case. *)
Theorem obj_name_stem (filename : string) :
  is_obj_name filename = true
  <-> exists stem, stem <> "" /\ filename = stem ++ ".obj".
Proof.
  split; [apply obj_name_split |].
  intros (stem & Hne & ->). unfold is_obj_name.
  rewrite string_length_app. cbn [String.length].
  apply andb_true_iff. split.
  - apply negb_true_iff, Nat.ltb_ge. destruct stem; [congruence | cbn; lia].
  - replace (String.length stem + 4 - 4)%nat with (String.length stem) by lia.
    now rewrite substring_past.
Qed.

Lemma outname_stem (stem : string) : outname (stem ++ ".obj") = stem ++ ".sdf".
Proof.
  unfold outname. rewrite string_length_app. cbn [String.length].
  replace (String.length stem + 4 - 4)%nat with (String.length stem) by lia.
  now rewrite substring_front.
Qed.

(** The file written is named after the input, ".obj" replaced by ".sdf". *)
Theorem output_name (num_get_float : float_reader) (passes : distance_field)
    (I : Indet) (argv : list string) (file : string -> option string)
    (out : string) (data : list datum) :
  main num_get_float passes I argv file = Written out data ->
  exists a0 stem arg2 arg3,
    argv = [a0; stem ++ ".obj"; arg2; arg3]
    /\ stem <> "" /\ out = stem ++ ".sdf".
Proof.
  unfold main. intros H.
  destruct (load num_get_float I argv file) as [code last | r padding dx name]
    eqn:Hload; [discriminate |].
  destruct (load_ready _ _ _ _ _ _ _ _ Hload)
    as (a0 & a2 & a3 & content & -> & Hname & _).
  apply obj_name_split in Hname as (stem & Hne & ->).
  unfold build_and_write in H.
  destruct (make_level_set3 _ _ _ _ _ _ _ _); [| discriminate].
  injection H as <- _. exists a0, stem, a2, a3.
  repeat split; [assumption | apply outname_stem].
Qed.

End InvocationFacts.

Import InvocationFacts.

(* ================================================================= *)
(** ** The lines of a file *)

Module LinesFacts.

#[local] Open Scope string_scope.
#[local] Open Scope Z_scope.

Lemma app_assoc_string (s t u : string) : (s ++ t) ++ u = s ++ t ++ u.
Proof. induction s as [| c s IH]; cbn; [reflexivity | now rewrite IH]. Qed.

Lemma getlines_from_not_nil (s : string) :
  forall cur, getlines_from cur s <> [].
Proof.
  induction s as [| c s IH]; intros cur; cbn; [discriminate |].
  destruct (Ascii.eqb c "010"); [discriminate | apply IH].
Qed.

Lemma concat_cons (sep x : string) (l : list string) :
  l <> [] -> String.concat sep (x :: l) = x ++ sep ++ String.concat sep l.
Proof. destruct l; [congruence | reflexivity]. Qed.

Lemma join_getlines_from (s : string) :
  forall cur, join_lines (getlines_from cur s) = cur ++ s.
Proof.
  unfold join_lines.
  induction s as [| c s IH]; intros cur; cbn [getlines_from].
  - cbn. now rewrite app_empty_r.
  - destruct (Ascii.eqb c "010") eqn:Hc.
    + apply Ascii.eqb_eq in Hc. subst c.
      rewrite concat_cons by apply getlines_from_not_nil.
      now rewrite IH.
    + rewrite IH. now rewrite app_assoc_string.
Qed.

Lemma holds_line_feed_cons (c : ascii) (s : string) :
  holds_line_feed (String c s) = Ascii.eqb "010" c || holds_line_feed s.
Proof. reflexivity. Qed.

Lemma holds_line_feed_app (s t : string) :
  holds_line_feed (s ++ t) = holds_line_feed s || holds_line_feed t.
Proof.
  induction s as [| c s IH]; [reflexivity |].
  cbn [append]. rewrite !holds_line_feed_cons, IH. apply orb_assoc.
Qed.

Lemma getlines_from_clean (s : string) :
  forall cur, holds_line_feed cur = false ->
  Forall (fun line => holds_line_feed line = false) (getlines_from cur s).
Proof.
  induction s as [| c s IH]; intros cur Hcur; cbn [getlines_from].
  - now constructor.
  - destruct (Ascii.eqb c "010") eqn:Hc.
    + constructor; [exact Hcur | now apply IH].
    + apply IH. rewrite holds_line_feed_app, Hcur, holds_line_feed_cons.
      rewrite Ascii.eqb_sym, Hc. reflexivity.
Qed.

(** Joining the lines that [getline] delivers with line feeds gives back
    the text of the file: no character is lost or added, a final line feed
    and an empty file included; there is always at least one line, and no
    line holds a line feed. *)
Theorem join_getlines (content : string) :
  join_lines (getlines content) = content
  /\ getlines content <> []
  /\ Forall (fun line => holds_line_feed line = false) (getlines content).
Proof.
  unfold getlines. repeat split.
  - apply (join_getlines_from content "").
  - apply getlines_from_not_nil.
  - now apply getlines_from_clean.
Qed.

Lemma getlines_from_app (l : string) :
  forall cur rest, holds_line_feed l = false ->
  getlines_from cur (l ++ rest) = getlines_from (cur ++ l) rest.
Proof.
  induction l as [| c l IH]; intros cur rest Hl.
  - cbn. now rewrite app_empty_r.
  - rewrite holds_line_feed_cons in Hl. apply orb_false_iff in Hl as [Hc Hl].
    cbn [append getlines_from]. rewrite Ascii.eqb_sym, Hc.
    rewrite IH by exact Hl. now rewrite app_assoc_string.
Qed.

(** The other way round: a text made of lines joined by line feeds is read
    back as exactly those lines. *)
Theorem getlines_join (lines : list string) :
  lines <> [] ->
  Forall (fun line => holds_line_feed line = false) lines ->
  getlines (join_lines lines) = lines.
Proof.
  unfold getlines, join_lines.
  induction lines as [| x lines IH]; intros Hne Hclean; [congruence |].
  inversion Hclean as [| ? ? Hx Hrest]; subst.
  destruct lines as [| y lines].
  - cbn [String.concat]. rewrite <- (app_empty_r x) at 1.
    now rewrite getlines_from_app.
  - rewrite concat_cons by discriminate.
    rewrite getlines_from_app by exact Hx.
    unfold line_feed. cbn [append getlines_from]. rewrite Ascii.eqb_refl.
    f_equal. apply IH; [discriminate | exact Hrest].
Qed.

(** A text that is empty or ends in a line feed has an empty last line. *)
Lemma getlines_from_last (s : string) :
  forall cur, In "" (getlines_from cur (s ++ line_feed)).
Proof.
  induction s as [| c s IH]; intros cur.
  - cbn. right. now left.
  - cbn [append getlines_from].
    destruct (Ascii.eqb c "010"); [right |]; apply IH.
Qed.

Lemma empty_last_line (content : string) :
  content = "" \/ (exists s, content = s ++ line_feed) ->
  In "" (getlines content).
Proof.
  intros [-> | (s & ->)]; [now left | apply getlines_from_last].
Qed.

End LinesFacts.

Import LinesFacts.

(* ================================================================= *)
(** ** What the reader holds after the loop *)

Module AccountingFacts.

#[local] Open Scope string_scope.
#[local] Open Scope Z_scope.

Lemma push_nothing (r : reader) : push_faces r [] = r.
Proof. destruct r. unfold push_faces. cbn. now rewrite app_nil_r. Qed.

Lemma face_outcome_faces (r : reader) (indices : list Z) :
  face_outcome r indices
  = match indices with
    | _ :: _ :: _ :: _ :: e :: _ => Exit 1 (mkStore 4 e false)
    | _ => Continue (push_faces r (faces_of_indices indices))
    end.
Proof.
  destruct indices as [| a [| b [| c [| d [| e l]]]]]; reflexivity.
Qed.

(** A face line ends the run exactly when it overruns the buffer. *)
Lemma process_line_overruns (num_get_float : float_reader) (g : line_indet)
    (line : string) (r : reader) :
  if overruns line
  then exists last, process_line num_get_float g line r = Exit 1 last
  else exists r', process_line num_get_float g line r = Continue r'.
Proof.
  unfold overruns. destruct (is_face_line line) eqn:Hf; cbn [andb].
  - rewrite (process_face_line _ _ _ _ Hf), face_outcome_faces.
    destruct (words line) as [| w0 [| w1 [| w2 [| w3 [| w4 [| w5 ws]]]]]];
      cbn; eauto.
  - unfold process_line. rewrite Hf.
    destruct (is_vertex_line line); [| eauto].
    destruct (update_minmax _ _ _). eauto.
Qed.

(** The loop ends the run exactly when some face line carries more than
    four indices. *)
Theorem read_loop_exit_iff (num_get_float : float_reader) (lines : list string) :
  forall (g : nat -> line_indet) (r : reader),
  (exists code last, read_loop num_get_float g lines r = Exit code last)
  <-> Exists (fun line => overruns line = true) lines.
Proof.
  induction lines as [| line lines IH]; intros g r; cbn [read_loop].
  - split; [intros (c & l & H); discriminate | intros H; inversion H].
  - pose proof (process_line_overruns num_get_float (g 0%nat) line r) as Hp.
    destruct (overruns line) eqn:Ho.
    + destruct Hp as (last & ->). split; [now left | eauto].
    + destruct Hp as (r' & ->). rewrite IH. split.
      * now right.
      * intros H. inversion H; subst; [congruence | assumption].
Qed.

Lemma process_line_state (num_get_float : float_reader) (g : line_indet)
    (line : string) (r r' : reader) :
  process_line num_get_float g line r = Continue r' ->
  let pts := if is_vertex_line line
             then [read_point num_get_float line (point_indet g)] else [] in
  vertList r' = (vertList r ++ pts)%list
  /\ faceList r' = (faceList r ++ faces_of_line line)%list
  /\ (min_box r', max_box r') = bound_box pts (min_box r, max_box r)
  /\ ignored_lines r'
     = ignored_lines r + (if is_ignored_line line then 1 else 0).
Proof.
  unfold faces_of_line, is_ignored_line.
  destruct (is_face_line line) eqn:Hf.
  - rewrite (process_face_line _ _ _ _ Hf), face_outcome_faces,
            (face_not_vertex _ Hf).
    destruct (map index_of_word (tl (words line)))
      as [| a [| b [| c [| d [| e l]]]]]; try discriminate;
      intros [= <-]; cbn; rewrite ?app_nil_r; repeat split; lia.
  - unfold process_line. rewrite Hf.
    destruct (is_vertex_line line).
    + destruct (update_minmax _ _ _) as [mn mx] eqn:Hu. intros [= <-].
      cbn. rewrite Hu, app_nil_r. repeat split. lia.
    + intros [= <-]. cbn. rewrite !app_nil_r. repeat split.
Qed.

Lemma read_loop_state (num_get_float : float_reader) (lines : list string) :
  forall (g : nat -> line_indet) (r0 r : reader),
  read_loop num_get_float g lines r0 = Continue r ->
  vertList r = (vertList r0 ++ points_of num_get_float g lines)%list
  /\ faceList r = (faceList r0 ++ flat_map faces_of_line lines)%list
  /\ (min_box r, max_box r)
     = bound_box (points_of num_get_float g lines) (min_box r0, max_box r0)
  /\ ignored_lines r
     = ignored_lines r0 + Z.of_nat (List.length (filter is_ignored_line lines)).
Proof.
  induction lines as [| line lines IH]; intros g r0 r H; cbn [read_loop] in H.
  - injection H as <-. cbn. rewrite !app_nil_r. repeat split. lia.
  - destruct (process_line num_get_float (g 0%nat) line r0) as [r1 | ? ?] eqn:H1;
      [| discriminate].
    destruct (process_line_state _ _ _ _ _ H1) as (Hv1 & Hf1 & Hb1 & Hi1).
    destruct (IH _ _ _ H) as (Hv & Hf & Hb & Hi).
    cbn [points_of flat_map filter]. repeat split.
    + now rewrite Hv, Hv1, app_assoc.
    + now rewrite Hf, Hf1, app_assoc.
    + rewrite Hb, bound_box_app, <- Hb1. reflexivity.
    + rewrite Hi, Hi1. destruct (is_ignored_line line); cbn [List.length]; lia.
Qed.

Lemma length_points_of (num_get_float : float_reader) (lines : list string) :
  forall g, List.length (points_of num_get_float g lines)
            = List.length (filter is_vertex_line lines).
Proof.
  induction lines as [| line lines IH]; intros g; cbn [points_of filter];
    [reflexivity |].
  rewrite List.length_app, IH. now destruct (is_vertex_line line).
Qed.

(** When the loop ends without leaving, the reader holds: one point per
    vertex line, in file order; the triangles of the face lines, in file
    order, one for three indices, two for four, none for any other count;
    the box folded over the points; and the number of lines that are
    neither vertex nor face lines. *)
Theorem reader_state (num_get_float : float_reader) (g : nat -> line_indet)
    (lines : list string) (r : reader) :
  read_loop num_get_float g lines initial = Continue r ->
  vertList r = points_of num_get_float g lines
  /\ List.length (vertList r) = List.length (filter is_vertex_line lines)
  /\ faceList r = flat_map faces_of_line lines
  /\ (min_box r, max_box r)
     = bound_box (vertList r) (inside_out_min, inside_out_max)
  /\ ignored_lines r = Z.of_nat (List.length (filter is_ignored_line lines)).
Proof.
  intros H. destruct (read_loop_state _ _ _ _ _ H) as (Hv & Hf & Hb & Hi).
  cbn in Hv, Hf, Hb, Hi. rewrite Hv, length_points_of. repeat split;
    assumption.
Qed.

(** A face line with fewer than three indices is dropped without a trace:
    no triangle is pushed and the line is not counted as ignored. *)
Theorem short_face_line_dropped (num_get_float : float_reader) (g : line_indet)
    (line : string) (r : reader) :
  is_face_line line = true ->
  (List.length (words line) < 4)%nat ->
  process_line num_get_float g line r = Continue r.
Proof.
  intros Hf Hlen. rewrite (process_face_line _ _ _ _ Hf), face_outcome_faces.
  destruct (words line) as [| w0 [| w1 [| w2 [| w3 ws]]]];
    cbn in Hlen |- *; try lia; now rewrite push_nothing.
Qed.

(** For a file that is empty or ends in a line feed, and in which no
    face line carries more than four indices, the reading loop runs to its
    end and the warning of lines 110-111 is printed, with a count of at
    least 1: the loop reads one more, empty, line after the last line feed
    and counts it as ignored.  (A face line with more than four indices
    ends the run at line 94, before the warning.) *)
Theorem final_line_feed_warns (num_get_float : float_reader) (I : Indet)
    (a0 filename arg2 arg3 content : string) (file : string -> option string) :
  is_obj_name filename = true ->
  file filename = Some content ->
  content = "" \/ (exists s, content = s ++ line_feed) ->
  Forall (fun line => overruns line = false) (getlines content) ->
  exists r,
    load num_get_float I [a0; filename; arg2; arg3] file
    = Ready r (parse_padding I arg3) (parse_dx num_get_float I arg2) filename
    /\ warning r = Some (ignored_lines r)
    /\ 1 <= ignored_lines r.
Proof.
  intros Hname Hfile Hend Hfit.
  destruct (read_loop num_get_float (line_indets I) (getlines content) initial)
    as [r | code last] eqn:Hread.
  - exists r. split; [unfold load; now rewrite Hname, Hfile, Hread |].
    destruct (read_loop_state _ _ _ _ _ Hread) as (_ & _ & _ & Hi).
    cbn [ignored_lines initial Z.add] in Hi.
    assert (Hin : In "" (filter is_ignored_line (getlines content))).
    { apply filter_In. split; [now apply empty_last_line | reflexivity]. }
    assert (Hpos : 1 <= ignored_lines r).
    { rewrite Hi. destruct (filter is_ignored_line (getlines content));
        [destruct Hin | cbn [List.length]; lia]. }
    split; [| exact Hpos].
    unfold warning. destruct (Z.ltb_spec 0 (ignored_lines r)); [reflexivity | lia].
  - exfalso.
    assert (Hex : Exists (fun line => overruns line = true) (getlines content))
      by (apply (read_loop_exit_iff num_get_float _ (line_indets I) initial);
          eauto).
    apply Exists_exists in Hex as (line & Hl & Ho).
    rewrite Forall_forall in Hfit. rewrite (Hfit line Hl) in Ho. discriminate.
Qed.

End AccountingFacts.

Import AccountingFacts.

(* ================================================================= *)
(** ** Edges: overruns, line endings, indices, padding *)

Module EdgeFacts.

#[local] Open Scope string_scope.
#[local] Open Scope Z_scope.

Lemma read_loop_exit_code (num_get_float : float_reader) (lines : list string) :
  forall (g : nat -> line_indet) (r : reader) (code : Z) (last : store_event),
  read_loop num_get_float g lines r = Exit code last ->
  code = 1 /\ at_index last = 4%nat /\ in_bounds last = false.
Proof.
  induction lines as [| line lines IH]; intros g r code last H; cbn in H.
  - discriminate.
  - destruct (process_line num_get_float (g 0%nat) line r) as [r1 | c l] eqn:H1.
    + now apply IH in H.
    + injection H as <- <-.
      destruct (exit_only_after_overrun _ _ _ _ _ _ H1) as (? & ? & ? & _).
      auto.
Qed.

(** [main] leaves with -1 exactly on a usage error: a wrong number of
    arguments, a name that is not an OBJ name, or a file that cannot be
    opened.  Nothing else does it, whatever the other arguments, the text
    of the file and the indeterminate values: the one exit of the reading
    loop is with 1. *)
Theorem exit_minus_one (num_get_float : float_reader) (passes : distance_field)
    (I : Indet) (argv : list string) (file : string -> option string) :
  (usage_error argv file = true ->
   main num_get_float passes I argv file = Exited (-1) None)
  /\ (forall last,
        main num_get_float passes I argv file = Exited (-1) last ->
        usage_error argv file = true).
Proof.
  unfold usage_error, main, load.
  destruct argv as [| a0 [| a1 [| a2 [| a3 [| a4 l]]]]];
    try (split; reflexivity).
  destruct (is_obj_name a1); cbn [negb orb]; [| split; reflexivity].
  destruct (file a1) as [content |]; [| split; reflexivity].
  split; [discriminate |]. intros last.
  destruct (read_loop num_get_float (line_indets I) (getlines content) initial)
    as [r | code ev] eqn:Hread.
  - unfold build_and_write. destruct (make_level_set3 _ _ _ _ _ _ _ _);
      discriminate.
  - destruct (read_loop_exit_code _ _ _ _ _ _ Hread) as (-> & _).
    intros H. injection H as H _. discriminate H.
Qed.

(** [main] leaves with 1 exactly when the invocation is in order and some
    face line of the file carries more than four indices; the store that
    preceded the exit went to position 4, out of bounds. *)
Theorem exit_one (num_get_float : float_reader) (passes : distance_field)
    (I : Indet) (argv : list string) (file : string -> option string) :
  (exists last,
     main num_get_float passes I argv file = Exited 1 (Some last)
     /\ at_index last = 4%nat /\ in_bounds last = false)
  <-> (usage_error argv file = false
       /\ exists content,
            file (nth 1 argv "") = Some content
            /\ Exists (fun line => overruns line = true) (getlines content)).
Proof.
  unfold usage_error, main, load.
  destruct argv as [| a0 [| a1 [| a2 [| a3 [| a4 l]]]]];
    try (split; [intros (? & H & _); discriminate H
                | intros [H _]; discriminate H]).
  cbn [nth].
  destruct (is_obj_name a1); cbn [negb orb];
    [| split; [intros (? & H & _); discriminate H
              | intros [H _]; discriminate H]].
  destruct (file a1) as [content |];
    [| split; [intros (? & H & _); discriminate H
              | intros [H _]; discriminate H]].
  pose proof (read_loop_exit_iff num_get_float (getlines content)
                (line_indets I) initial) as Hiff.
  destruct (read_loop num_get_float (line_indets I) (getlines content) initial)
    as [r | code last] eqn:Hread.
  - split.
    + intros (ev & H & _). unfold build_and_write in H.
      destruct (make_level_set3 _ _ _ _ _ _ _ _); discriminate.
    + intros (_ & c & [= <-] & Hex). apply Hiff in Hex as (? & ? & ?).
      discriminate.
  - destruct (read_loop_exit_code _ _ _ _ _ _ Hread) as (-> & Hat & Hin).
    split.
    + intros _. split; [reflexivity |]. exists content. split; [reflexivity |].
      apply Hiff. eauto.
    + intros _. exists last. auto.
Qed.

(** *** Carriage returns *)

Lemma words_app_space (c : ascii) (s : string) :
  isspace c = true -> words (s ++ String c "") = words s.
Proof.
  intros Hc. induction s as [| a s IH].
  - cbn. now rewrite Hc.
  - cbn [append]. rewrite !words_cons. destruct (isspace a); [exact IH |].
    destruct s as [| b s].
    + cbn [append]. rewrite Hc. cbn. now rewrite Hc.
    + cbn [append] in IH |- *. now rewrite IH.
Qed.

Lemma line_kind_carriage_return (line : string) :
  is_vertex_line (line ++ carriage_return) = is_vertex_line line
  /\ is_face_line (line ++ carriage_return) = is_face_line line.
Proof.
  unfold is_vertex_line, is_face_line, carriage_return.
  destruct line as [| a [| b rest]]; cbn; split; try reflexivity;
    now rewrite !andb_false_r.
Qed.

(** A carriage return at the end of a line that is not a vertex line
    changes nothing: a face line of a file with CR LF line ends gives the
    triangles it gives without the CR, any other line is ignored as
    before. *)
Theorem carriage_return_ignored (num_get_float : float_reader) (g : line_indet)
    (line : string) (r : reader) :
  is_vertex_line line = false ->
  process_line num_get_float g (line ++ carriage_return) r
  = process_line num_get_float g line r.
Proof.
  intros Hv. unfold process_line.
  destruct (line_kind_carriage_return line) as [-> ->]. rewrite Hv.
  unfold carriage_return. now rewrite words_app_space.
Qed.

(** *** Indices that are not positive *)

Lemma no_digit_index (w : string) :
  starts_with_digit (snd (split_sign w)) = false -> index_of_word w = 0.
Proof.
  unfold index_of_word, num_get_int.
  destruct (split_sign w) as [neg body]. cbn [snd]. now intros ->.
Qed.

(** An index that is zero or negative is not resolved against the vertex
    list, as OBJ has it for relative indices: the component stored for an
    index n <= 0 is 2^32 + n - 1, which is at least 2^31 - 1.  A word
    without a leading number counts as index 0 and is stored as
    2^32 - 1. *)
Theorem non_positive_index_wraps (w : string) (b c : Z) :
  index_of_word w <= 0 ->
  let n := index_of_word w in
  x0 (tri n b c) = 4294967296 + n - 1
  /\ 2147483647 <= x0 (tri n b c) <= 4294967295
  /\ (starts_with_digit (snd (split_sign w)) = false ->
      x0 (tri n b c) = 4294967295).
Proof.
  intros Hn n. pose proof (num_get_int_range w) as Hr.
  unfold INT_MIN, INT_MAX in Hr. fold (index_of_word w) in Hr. fold n in Hr, Hn.
  assert (Hx : x0 (tri n b c) = 4294967296 + n - 1).
  { unfold tri, Vec3ui_of_ints. cbn [x0]. unfold uint.
    change (2 ^ 32) with 4294967296.
    rewrite <- (Z.mod_add (n - 1) 1 4294967296) by lia.
    rewrite Z.mod_small by lia. lia. }
  repeat split; try lia.
  intros Hd. rewrite Hx. unfold n. rewrite (no_digit_index w Hd). reflexivity.
Qed.

(** *** A padding argument that is not a number *)

(** A padding argument that holds a field but no leading integer makes the
    extraction fail with 0 stored, and the clamp turns that into 1: the
    program goes on with one cell of padding. *)
Theorem padding_not_a_number (I : Indet) (arg : string) :
  has_field arg = true ->
  starts_with_digit (snd (split_sign (skipws arg))) = false ->
  parse_padding I arg = 1.
Proof.
  unfold has_field, parse_padding, get_int, sentry, open. cbn [failed buf].
  intros Hf Hd.
  destruct (skipws arg) as [| c s] eqn:Hs; [discriminate |].
  unfold num_get_int. destruct (split_sign (String c s)) as [neg body].
  cbn [snd] in Hd. rewrite Hd. reflexivity.
Qed.

End EdgeFacts.

Import EdgeFacts.

(* ================================================================= *)
(** ** What the first extraction of a line consumes *)

Module FirstTokenFacts.

#[local] Open Scope char_scope.
#[local] Open Scope string_scope.
#[local] Open Scope Z_scope.

Lemma space_or_tab (c : ascii) :
  Ascii.eqb c " " || Ascii.eqb c "009" = true -> isspace c = true.
Proof.
  intros H. apply orb_true_iff in H as [H | H];
    apply Ascii.eqb_eq in H; subst c; reflexivity.
Qed.

Lemma line_shape (k : ascii) (line : string) :
  Ascii.eqb (char_at line 0) k
  && (Ascii.eqb (char_at line 1) " " || Ascii.eqb (char_at line 1) "009") = true ->
  exists c rest, line = String k (String c rest) /\ isspace c = true.
Proof.
  intros H. apply andb_true_iff in H as [H0 H1].
  destruct line as [| a [| c rest]]; unfold char_at in *; cbn in H0, H1.
  - discriminate H1.
  - discriminate H1.
  - apply Ascii.eqb_eq in H0. subst a. exists c, rest.
    split; [reflexivity | now apply space_or_tab].
Qed.

(** The word that line 86 reads and drops is the letter f itself: the
    words the loop goes through are all the words after it, no index is
    lost. *)
Theorem face_line_first_word (line : string) :
  is_face_line line = true ->
  exists ws, words line = "f" :: ws /\ tl (words line) = ws.
Proof.
  intros H. destruct (line_shape "f" line H) as (c & rest & -> & Hc).
  rewrite words_cons. cbn [isspace N_of_ascii]. rewrite Hc.
  eexists. split; reflexivity.
Qed.

(** The character that line 77 reads into [c] is the v itself, and the
    first coordinate is extracted from what follows it. *)
Theorem vertex_line_first_char (line : string) (old : ascii) :
  is_vertex_line line = true ->
  exists rest, line = String "v" rest
               /\ get_char (open line) old = ("v"%char, mkStream rest false).
Proof.
  intros H. destruct (line_shape "v" line H) as (c & rest & -> & Hc).
  exists (String c rest). split; reflexivity.
Qed.

End FirstTokenFacts.

Import FirstTokenFacts.

(* ================================================================= *)
(** ** The further theorems at sample inputs *)

Module MoreWitnesses.

#[local] Open Scope string_scope.
#[local] Open Scope Z_scope.

Lemma cube_read :
  read_loop Decimal.num_get_float (line_indets indet_a) (getlines cube_obj)
            initial
  = Continue cube_mesh.
Proof. vm_compute. reflexivity. Defined.

Lemma cube_written :
  main Decimal.num_get_float flat_field indet_a cube_args files
  = Written "cube.sdf" cube_record.
Proof. vm_compute. reflexivity. Defined.

(** The cube is written to cube.sdf. *)
Lemma output_name_witness :
  exists a0 stem arg2 arg3,
    cube_args = [a0; stem ++ ".obj"; arg2; arg3]
    /\ stem <> "" /\ "cube.sdf" = stem ++ ".sdf".
Proof.
  exact (output_name Decimal.num_get_float flat_field indet_a cube_args files
           "cube.sdf" cube_record cube_written).
Defined.

(** A name in upper case is a usage error; a face line with five indices
    is not, and the run it ends does not end with -1. *)
Lemma exit_minus_one_witness :
  usage_error ["SDFGen"; "cube.OBJ"; "0.5"; "1"] files = true
  /\ main Decimal.num_get_float flat_field indet_a
          ["SDFGen"; "cube.OBJ"; "0.5"; "1"] files = Exited (-1) None
  /\ forall last,
       main Decimal.num_get_float flat_field indet_a
            ["SDFGen"; "five.obj"; "0.5"; "1"] (fun _ => Some "f 1 2 3 4 5")
       <> Exited (-1) last.
Proof.
  split; [reflexivity |]. split.
  - exact (proj1 (exit_minus_one Decimal.num_get_float flat_field indet_a
                    ["SDFGen"; "cube.OBJ"; "0.5"; "1"] files) eq_refl).
  - intros last H.
    pose proof (proj2 (exit_minus_one Decimal.num_get_float flat_field indet_a
                         ["SDFGen"; "five.obj"; "0.5"; "1"]
                         (fun _ => Some "f 1 2 3 4 5")) last H) as Hu.
    discriminate Hu.
Defined.

(** Three lines, the last one empty. *)
Lemma getlines_join_witness :
  ["v 1 2 3"; "f 1 1 1"; ""] <> []
  /\ getlines (join_lines ["v 1 2 3"; "f 1 1 1"; ""])
     = ["v 1 2 3"; "f 1 1 1"; ""].
Proof.
  split; [discriminate |].
  apply getlines_join; [discriminate | repeat constructor].
Defined.

(** The cube: eight vertex lines, six quads, a comment line and the empty
    line after the last line feed. *)
Lemma reader_state_witness :
  List.length (vertList cube_mesh) = 8%nat
  /\ faceList cube_mesh = flat_map faces_of_line (getlines cube_obj)
  /\ ignored_lines cube_mesh = 2.
Proof.
  destruct (reader_state Decimal.num_get_float (line_indets indet_a)
              (getlines cube_obj) cube_mesh cube_read)
    as (_ & Hlen & Hfaces & _ & Hign).
  split; [exact Hlen |]. split; [exact Hfaces | exact Hign].
Defined.

(** A face line with two indices. *)
Lemma short_face_line_dropped_witness :
  is_face_line "f 1 2" = true
  /\ process_line Decimal.num_get_float (line_indets indet_a 0%nat) "f 1 2"
                  cube_mesh
     = Continue cube_mesh.
Proof.
  split; [reflexivity |].
  apply short_face_line_dropped; [reflexivity | cbn; lia].
Defined.

(** The cube file ends in a line feed and has no face line with more than
    four indices: two lines are counted, the comment and the empty line
    after the last line feed. *)
Lemma final_line_feed_warns_witness :
  files "cube.obj" = Some cube_obj
  /\ Forall (fun line => overruns line = false) (getlines cube_obj)
  /\ exists r,
       load Decimal.num_get_float indet_a cube_args files
       = Ready r 1 half "cube.obj"
       /\ warning r = Some (ignored_lines r) /\ 1 <= ignored_lines r.
Proof.
  assert (Hfit : Forall (fun line => overruns line = false) (getlines cube_obj))
    by (repeat constructor).
  split; [reflexivity |]. split; [exact Hfit |].
  apply (final_line_feed_warns Decimal.num_get_float indet_a
           "SDFGen" "cube.obj" "0.5" "1" cube_obj files);
    [reflexivity | reflexivity | | exact Hfit].
  right. exists (substring 0 (String.length cube_obj - 1) cube_obj).
  vm_compute. reflexivity.
Defined.

(** A triangle line of a file with CR LF line ends. *)
Lemma carriage_return_ignored_witness :
  is_vertex_line "f 1 2 3" = false
  /\ process_line Decimal.num_get_float (line_indets indet_a 0%nat)
                  ("f 1 2 3" ++ carriage_return) initial
     = process_line Decimal.num_get_float (line_indets indet_a 0%nat)
                    "f 1 2 3" initial.
Proof.
  split; [reflexivity |]. now apply carriage_return_ignored.
Defined.

(** The relative index -1. *)
Lemma non_positive_index_wraps_witness :
  index_of_word "-1" <= 0
  /\ x0 (tri (index_of_word "-1") 2 3) = 4294967296 + index_of_word "-1" - 1.
Proof.
  assert (H : index_of_word "-1" <= 0) by (vm_compute; discriminate).
  split; [exact H |].
  exact (proj1 (non_positive_index_wraps "-1" 2 3 H)).
Defined.

(** A padding argument that is a word. *)
Lemma padding_not_a_number_witness :
  has_field "two" = true /\ parse_padding indet_a "two" = 1.
Proof.
  split; [reflexivity |]. now apply padding_not_a_number.
Defined.

Lemma face_line_first_word_witness :
  is_face_line "f 1 2 3" = true
  /\ exists ws, words "f 1 2 3" = "f" :: ws /\ tl (words "f 1 2 3") = ws.
Proof.
  split; [reflexivity |]. now apply face_line_first_word.
Defined.

Lemma vertex_line_first_char_witness :
  is_vertex_line "v 1 2 3" = true
  /\ exists rest, "v 1 2 3" = String "v" rest
                  /\ get_char (open "v 1 2 3") Ascii.zero
                     = ("v"%char, mkStream rest false).
Proof.
  split; [reflexivity |]. now apply vertex_line_first_char.
Defined.

End MoreWitnesses.
